(** * gemini-cli: the embedding blob encoding and the command glue

    A shallow embedding of the Go package [commands] of gemini-cli:
    - [encodeEmbedding] and [decodeEmbedding], the blob format of an
      embedding;
    - [embedModeDB] and [scanRowIntoSlice], the [embed --db] pipeline, over a
      database driver that is a parameter;
    - [runPromptCmd] (the [prompt] command) and [runTemplateCmd] (the
      [template] command), up to the call that sends the prompt parts.

    Conventions.  A Go [byte] and a Go [uint32] are integers of [Z], with the
    truncation of a conversion written out ([Z.land]).  A Go [string] is a
    [string], a sequence of bytes.  A Go [(value, error)] pair is a [result];
    a function that can leave through [log.Fatal] or [panic] returns an
    [outcome].  Part I holds the definitions, Part II the properties. *)

From Stdlib Require Import ZArith String Ascii List Lia.
From stdpp Require Import base list strings gmap pretty.

(** * Part I: the program *)

(** ** Errors and abnormal exits *)

(** A Go [(T, error)] pair: [Err e] carries [e.Error()]. *)
Inductive result (A : Type) : Type :=
| Ok (a : A)
| Err (e : string).
Arguments Ok {A} a.
Arguments Err {A} e.

(** How a Go function call ends: it returns, or [log.Fatal] ends the process
    (the message is logged, then [os.Exit(1)]), or it panics. *)
Inductive outcome (A : Type) : Type :=
| Done (a : A)
| Fatal (msg : string)
| Panic (msg : string).
Arguments Done {A} a.
Arguments Fatal {A} msg.
Arguments Panic {A} msg.

Definition aborted {A : Type} (o : outcome A) : Prop :=
  match o with
  | Done _ => False
  | Fatal _ | Panic _ => True
  end.

(** ** encoding/binary, bytes.Buffer and bytes.Reader *)

Module Binary.
Local Open Scope Z_scope.

(** The conversion [byte(x)] keeps the low eight bits. *)
Definition byte (x : Z) : Z := Z.land x 255.

Definition is_byte (b : Z) : Prop := 0 <= b < 256.
Definition is_uint32 (u : Z) : Prop := 0 <= u < 2 ^ 32.

(** [binary.LittleEndian.PutUint32]:
    b[0] = byte(v); b[1] = byte(v >> 8); b[2] = byte(v >> 16);
    b[3] = byte(v >> 24). *)
Definition PutUint32 (v : Z) : list Z :=
  [byte v; byte (Z.shiftr v 8); byte (Z.shiftr v 16); byte (Z.shiftr v 24)].

(** [binary.LittleEndian.Uint32] on the four bytes it reads:
    uint32(b[0]) | uint32(b[1])<<8 | uint32(b[2])<<16 | uint32(b[3])<<24.
    The operands are bytes, so no bit is shifted out of the 32. *)
Definition Uint32 (b0 b1 b2 b3 : Z) : Z :=
  Z.lor (Z.lor (Z.lor b0 (Z.shiftl b1 8)) (Z.shiftl b2 16)) (Z.shiftl b3 24).

(** A [float32] is represented by its IEEE-754 binary32 bit pattern, the
    [uint32] that [math.Float32bits] returns; [math.Float32bits] and
    [math.Float32frombits] reinterpret the same 32 bits. *)
Definition float32 : Type := Z.
Definition is_float32 (f : float32) : Prop := is_uint32 f.
Definition Float32bits (f : float32) : Z := f.
Definition Float32frombits (u : Z) : float32 := u.

(** [bytes.Buffer]: the bytes written so far.  [Write] appends and its
    error is always nil. *)
Definition Buffer : Type := list Z.
Definition Buffer_Write (buf : Buffer) (p : list Z) : result Buffer :=
  Ok (buf ++ p).

(** [binary.Write(buf, binary.LittleEndian, f)] for [f : float32]: the
    fast path puts [math.Float32bits(f)] into four bytes and writes them. *)
Definition Write (buf : Buffer) (f : float32) : result Buffer :=
  Buffer_Write buf (PutUint32 (Float32bits f)).

(** [bytes.Reader]: the unread part of the slice. *)
Definition Reader : Type := list Z.
Definition NewReader (b : list Z) : Reader := b.
Definition Reader_Len (r : Reader) : nat := length r.

(** [binary.Read(buf, binary.LittleEndian, &num)] for [num : float32]:
    [io.ReadFull] of four bytes, which fails with EOF on an exhausted reader
    and with [io.ErrUnexpectedEOF] on one to three remaining bytes (which
    it consumes); then [math.Float32frombits] of the little-endian word. *)
Definition Read (r : Reader) : Reader * result float32 :=
  match r with
  | b0 :: b1 :: b2 :: b3 :: r' => (r', Ok (Float32frombits (Uint32 b0 b1 b2 b3)))
  | [] => ([], Err "EOF")
  | _ => ([], Err "unexpected EOF")
  end.

End Binary.

(** ** The embedding blob: encodeEmbedding and decodeEmbedding *)

Module Embedding.
Import Binary.
Local Open Scope Z_scope.

(** The loop [for _, f := range emb] of [encodeEmbedding]. *)
Fixpoint encode_loop (emb : list float32) (buf : Buffer) : outcome Buffer :=
  match emb with
  | [] => Done buf
  | f :: emb' =>
      match Write buf f with
      | Err e => Panic e
      | Ok buf' => encode_loop emb' buf'
      end
  end.

(** [func encodeEmbedding(emb []float32) []byte] *)
Definition encodeEmbedding (emb : list float32) : outcome (list Z) :=
  encode_loop emb [].

(** The loop [for i := 0; i < count; i++] of [decodeEmbedding], by the
    number of iterations left. *)
Fixpoint decode_loop (left : nat) (buf : Reader) (numbers : list float32)
  : outcome (list float32) :=
  match left with
  | O => Done numbers
  | S left' =>
      match Read buf with
      | (_, Err e) => Panic e
      | (buf', Ok num) => decode_loop left' buf' (numbers ++ [num])
      end
  end.

(** [func decodeEmbedding(b []byte) []float32] *)
Definition decodeEmbedding (b : list Z) : outcome (list float32) :=
  let buf := NewReader b in
  let count := (Reader_Len buf / 4)%nat in
  decode_loop count buf [].

(** The words of a byte sequence, four bytes at a time; what is left after
    the last whole word is dropped. *)
Fixpoint words (left : nat) (b : list Z) : list float32 :=
  match left, b with
  | S left', b0 :: b1 :: b2 :: b3 :: b' =>
      Float32frombits (Uint32 b0 b1 b2 b3) :: words left' b'
  | _, _ => []
  end.

End Embedding.

(** ** fmt and strings *)

Module Fmt.

Definition nl : string := String (ascii_of_nat 10) EmptyString.
Definition tab : string := String (ascii_of_nat 9) EmptyString.

(** The loop of [strings.Join] after the first element:
    [for _, s := range elems[1:] { b.WriteString(sep); b.WriteString(s) }]. *)
Fixpoint Join_rest (elems : list string) (sep : string) : string :=
  match elems with
  | [] => ""
  | s :: elems' => sep +:+ s +:+ Join_rest elems' sep
  end.

(** [strings.Join(elems, sep)]: empty for no element, the element itself for
    one, otherwise the first element followed by [sep] and the next, in
    order. *)
Definition strings_Join (elems : list string) (sep : string) : string :=
  match elems with
  | [] => ""
  | [s] => s
  | s :: elems' => s +:+ Join_rest elems' sep
  end.

(** [fmt.Sprint] of a [[]string] (as [fmt.Println(ids)] prints it before the
    newline): the elements between brackets, separated by one space. *)
Definition Sprint_strings (l : list string) : string :=
  "[" +:+ strings_Join l " " +:+ "]".

(** [%v] of an [int]. *)
Definition Sprint_int (n : nat) : string := pretty n.

End Fmt.

(** ** database/sql as the pipeline sees it *)

Module Sql.

(** The calls that leave the program. *)
Inductive call : Type :=
| sql_Open (driverName dataSourceName : string)
| DB_Exec (query : string)
| DB_Query (query : string)
| Rows_Next
| Rows_Columns
| Rows_Scan
| Rows_Err
| fmt_Println (line : string).

(** One entry of the run's history: a call and the error it returned, if
    any. *)
Record event : Type := Event { ev_call : call; ev_err : option string }.

(** A command threads the history of its calls; an abort keeps the history
    up to the abort. *)
Definition M (A : Type) : Type := list event -> outcome A * list event.

Definition ret {A : Type} (a : A) : M A := fun t => (Done a, t).

Definition bind {A B : Type} (k : A -> M B) (m : M A) : M B :=
  fun t =>
    match m t with
    | (Done a, t') => k a t'
    | (Fatal msg, t') => (Fatal msg, t')
    | (Panic msg, t') => (Panic msg, t')
    end.

#[global] Instance M_ret : MRet M := @ret.
#[global] Instance M_bind : MBind M := @bind.

(** [log.Fatal(msg)] and [panic(msg)]. *)
Definition log_Fatal {A : Type} (msg : string) : M A := fun t => (Fatal msg, t).
Definition panic {A : Type} (msg : string) : M A := fun t => (Panic msg, t).

(** Record a call together with its error. *)
Definition called (c : call) (err : option string) : M unit :=
  fun t => (Done tt, t ++ [Event c err]).

(** A run starts with an empty history. *)
Definition run {A : Type} (m : M A) : outcome A * list event := m [].

Definition error_of {A : Type} (r : result A) : option string :=
  match r with
  | Ok _ => None
  | Err e => Some e
  end.

(** Every call of the history [tl] that returned an error is its last call,
    and the command that made it ended in an abort. *)
Definition stops_at_error {A : Type} (o : outcome A) (tl : list event) : Prop :=
  ∀ (i : nat) (c : call) (e : string),
    tl !! i = Some (Event c (Some e)) → aborted o ∧ length tl = S i.

(** A command that only adds to the history, and stops at the first call
    that returns an error. *)
Definition orderly {A : Type} (m : M A) : Prop :=
  ∀ t : list event, ∃ (o : outcome A) (tl : list event),
    m t = (o, t ++ tl) ∧ stops_at_error o tl.

(** A command all of whose calls satisfy [P]. *)
Definition calls_only {A : Type} (P : call → Prop) (m : M A) : Prop :=
  ∀ t : list event, ∃ (o : outcome A) (tl : list event),
    m t = (o, t ++ tl) ∧ Forall (λ ev, P (ev_call ev)) tl.

(** [*sql.Rows]: the column names [Columns] returns, what [Scan] finds in
    each row that [Next] reaches (the values the driver delivers, or an
    error), and the error [Err] reports once [Next] has returned false. *)
Record Rows (any : Type) : Type := {
  columns : result (list string);
  pending : list (result (list any));
  iter_err : option string;
}.
Arguments columns {any} _.
Arguments pending {any} _.
Arguments iter_err {any} _.

(** [rows.Scan(dest...)] with [n] destinations of type [*any]: the row's
    values, provided their number is [n]. *)
Definition Scan {any : Type} (row : result (list any)) (n : nat)
  : result (list any) :=
  match row with
  | Err e => Err e
  | Ok values =>
      if decide (length values = n) then Ok values
      else Err ("sql: expected " +:+ Fmt.Sprint_int (length values)
                +:+ " destination arguments in Scan, not " +:+ Fmt.Sprint_int n)
  end.

(** A database driver behind [database/sql]: [DB] is the state of a session
    (an open handle with the files behind it), [any] the type of the values
    of a result row. *)
Class Driver (any DB : Type) : Type := {
  Open : string -> string -> result DB;
  Exec : DB -> string -> DB * option string;
  Query : DB -> string -> DB * result (Rows any);
}.

End Sql.

(** ** embed --db *)

Module EmbedDB.
Import Sql.

(** The flags of the [embed] command that [embedModeDB] reads. *)
Record Flags : Type := {
  sql : string;          (* --sql, default "" *)
  table : string;        (* --table, default "embeddings" *)
  attach : list string;  (* --attach, a string slice, default nil *)
}.

(** The statement of [fmt.Sprintf(`... CREATE TABLE IF NOT EXISTS %s ...`,
    tableName)], with the line breaks and tabs of the raw string. *)
Definition create_table_stmt (tableName : string) : string :=
  Fmt.nl +:+ "  CREATE TABLE IF NOT EXISTS " +:+ tableName +:+ " (" +:+ Fmt.nl
  +:+ Fmt.tab +:+ "id TEXT PRIMARY KEY," +:+ Fmt.nl
  +:+ Fmt.tab +:+ "embedding BLOB" +:+ Fmt.nl
  +:+ Fmt.tab +:+ ")".

(** [fmt.Sprintf("ATTACH DATABASE '%v' as %v", path, alias)] *)
Definition attach_stmt (path alias : string) : string :=
  "ATTACH DATABASE '" +:+ path +:+ "' as " +:+ alias.

(** The calls the pipeline is written to make. *)
Definition pipeline_call (flags : Flags) (dbPath : string) (c : call) : Prop :=
  match c with
  | sql_Open driverName path => driverName = "sqlite3" ∧ path = dbPath
  | DB_Exec stmt =>
      stmt = create_table_stmt (table flags) ∨
      ∃ alias path rest,
        attach flags = alias :: path :: rest ∧ stmt = attach_stmt path alias
  | DB_Query query => query = sql flags
  | Rows_Next | Rows_Columns | Rows_Scan | Rows_Err => True
  | fmt_Println _ => True
  end.

Section Pipeline.
Context {any DB : Type} `{!Driver any DB}.
(** [fmt.Sprintf("%v", v)] on a value of a row. *)
Variable Sprintf_v : any -> string.

(** [func scanRowIntoSlice(row *sql.Rows) []any], with the cursor on [row]. *)
Definition scanRowIntoSlice (rows : Rows any) (row : result (list any))
  : M (list any) :=
  called Rows_Columns (error_of (columns rows));;
  match columns rows with
  | Err e => panic e
  | Ok colNames =>
      let scanned := Scan row (length colNames) in
      called Rows_Scan (error_of scanned);;
      match scanned with
      | Err e => log_Fatal ("error scanning row:" +:+ e)
      | Ok values => mret values
      end
  end.

(** The loop [for rows.Next() { ... }] over the rows that [Next] still
    reaches; [ids] and [texts] are the slices built so far. *)
Fixpoint rows_loop (rows : Rows any) (todo : list (result (list any)))
    (ids texts : list string) : M (list string * list string) :=
  match todo with
  | [] => called Rows_Next None;; mret (ids, texts)
  | row :: todo' =>
      called Rows_Next None;;
      values ← scanRowIntoSlice rows row;
      if decide (length values < 2) then
        log_Fatal ("expect at least 2 columns from query; got "
                   +:+ Fmt.Sprint_int (length values))
      else
        match values with
        | [] => panic "index out of range"
        | id :: rest =>
            let rowTexts := Sprintf_v <$> rest in
            rows_loop rows todo' (ids ++ [Sprintf_v id])
                      (texts ++ [Fmt.strings_Join rowTexts " "])
        end
  end.

(** The block of [embedModeDB] from [db.Query(sqlMode)] to the check of
    [rows.Err()], on the session [db]. *)
Definition query_rows (db : DB) (sqlMode : string)
  : M (DB * list string * list string) :=
  let '(db, queried) := Query db sqlMode in
  called (DB_Query sqlMode) (error_of queried);;
  match queried with
  | Err e => log_Fatal ("error running SQL query:" +:+ e)
  | Ok rows =>
      '(ids, texts) ← rows_loop rows (pending rows) [] [];
      called Rows_Err (iter_err rows);;
      match iter_err rows with
      | Some e => log_Fatal ("error scanning DB:" +:+ e)
      | None => mret (db, ids, texts)
      end
  end.

(** The block [if len(attachPair) > 0 { ... }] of [embedModeDB]. *)
Definition attach_database (db : DB) (attachPair : list string) : M DB :=
  if decide (0 < length attachPair) then
    if decide (length attachPair ≠ 2) then
      log_Fatal "expect <alias>,<db path> pair for --attach"
    else
      match attachPair with
      | alias :: path :: _ =>
          let attachStmt := attach_stmt path alias in
          let '(db, err) := Exec db attachStmt in
          called (DB_Exec attachStmt) err;;
          match err with
          | Some e => log_Fatal ("unable to attach " +:+ path +:+ ": " +:+ e)
          | None => mret db
          end
      | _ => panic "index out of range"
      end
  else mret db.

(** [func embedModeDB(cmd *cobra.Command, args []string, dbPath string)].
    The function returns nothing; the model returns the last values of its
    variables [db], [ids] and [texts].  The history records the calls
    written in the body; the deferred [db.Close()] and [rows.Close()], which
    run when the function returns or panics, are not recorded. *)
Definition embedModeDB (flags : Flags) (args : list string) (dbPath : string)
  : M (DB * list string * list string) :=
  let sqlMode := sql flags in
  let opened := Open "sqlite3" dbPath in
  called (sql_Open "sqlite3" dbPath) (error_of opened);;
  match opened with
  | Err _ => log_Fatal ("unable to open DB at " +:+ dbPath)
  | Ok db =>
      let tableName := table flags in
      let '(db, err) := Exec db (create_table_stmt tableName) in
      called (DB_Exec (create_table_stmt tableName)) err;;
      match err with
      | Some _ => log_Fatal ("unable to create table in DB: " +:+ tableName)
      | None =>
          '(db, ids, texts) ←
            (if decide (sqlMode ≠ "") then
               db ← attach_database db (attach flags);
               query_rows db sqlMode
             else panic "only sql for now");
          called (fmt_Println (Fmt.Sprint_strings ids)) None;;
          called (fmt_Println (Fmt.Sprint_strings texts)) None;;
          mret (db, ids, texts)
      end
  end.

(** The steps before the query succeed and leave the session [db]: the
    database opens, the table is created, and [--attach] is absent or a pair
    whose database attaches. *)
Definition reaches_query (flags : Flags) (dbPath : string) (db : DB) : Prop :=
  sql flags ≠ "" ∧
  ∃ db0 db1 : DB,
    Open "sqlite3" dbPath = Ok db0 ∧
    Exec db0 (create_table_stmt (table flags)) = (db1, None) ∧
    ((attach flags = [] ∧ db = db1) ∨
     (∃ alias path : string,
        attach flags = [alias; path] ∧
        Exec db1 (attach_stmt path alias) = (db, None))).

End Pipeline.

End EmbedDB.

(** ** An in-memory driver, for running the pipeline on examples *)

Module MemDB.
Import Sql.

(** The values a row of the example database holds, and their [%v]. *)
Inductive value : Type :=
| Null
| Integer (n : Z)
| Text (s : string).

Definition Sprintf_v (v : value) : string :=
  match v with
  | Null => "<nil>"
  | Integer n => pretty n
  | Text s => s
  end.

(** A session: the tables of the main database, each a map from id to blob,
    and the aliases attached so far. *)
Record session : Type := {
  tables : gmap string (gmap string (list Z));
  attached : list (string * string);
}.

Definition notes : Rows value := {|
  columns := Ok ["id"; "title"; "body"];
  pending := [Ok [Integer 1; Text "hello"; Text "world"];
              Ok [Integer 2; Text "lorem"; Null]];
  iter_err := None;
|}.

Definition note_ids : Rows value := {|
  columns := Ok ["id"];
  pending := [Ok [Integer 1]; Ok [Integer 2]];
  iter_err := None;
|}.

Definition broken_notes : Rows value := {|
  columns := Ok ["id"; "title"; "body"];
  pending := [Ok [Integer 1; Text "hello"; Text "world"];
              Err "sql: Scan error";
              Ok [Integer 3; Text "never"; Text "reached"]];
  iter_err := None;
|}.

Definition mem_Open (driverName path : string) : result session :=
  if decide (driverName = "sqlite3")
  then Ok {| tables := ∅; attached := [] |}
  else Err "sql: unknown driver".

Definition mem_Exec (db : session) (stmt : string) : session * option string :=
  if decide (stmt = EmbedDB.create_table_stmt "embeddings") then
    match tables db !! "embeddings" with
    | Some _ => (db, None)
    | None => ({| tables := <["embeddings" := ∅]> (tables db);
                  attached := attached db |}, None)
    end
  else if decide (stmt = EmbedDB.attach_stmt "docs.db" "docs") then
    ({| tables := tables db; attached := ("docs", "docs.db") :: attached db |},
     None)
  else (db, Some "SQL logic error").

Definition mem_Query (db : session) (q : string)
  : session * result (Rows value) :=
  if decide (q = "SELECT id, title, body FROM docs.notes") then
    if decide (("docs", "docs.db") ∈ attached db)
    then (db, Ok notes)
    else (db, Err "no such table: docs.notes")
  else if decide (q = "SELECT id FROM notes") then (db, Ok note_ids)
  else if decide (q = "SELECT id, title, body FROM notes") then
    (db, Ok broken_notes)
  else (db, Err "SQL logic error").

(** Invocations of [embed --db out.db] on the example database. *)
Definition attach_notes : EmbedDB.Flags := {|
  EmbedDB.sql := "SELECT id, title, body FROM docs.notes";
  EmbedDB.table := "embeddings";
  EmbedDB.attach := ["docs"; "docs.db"];
|}.

Definition no_sql : EmbedDB.Flags := {|
  EmbedDB.sql := "";
  EmbedDB.table := "embeddings";
  EmbedDB.attach := [];
|}.

Definition only_ids : EmbedDB.Flags := {|
  EmbedDB.sql := "SELECT id FROM notes";
  EmbedDB.table := "embeddings";
  EmbedDB.attach := [];
|}.

Definition attach_alone : EmbedDB.Flags := {|
  EmbedDB.sql := "SELECT id, title, body FROM docs.notes";
  EmbedDB.table := "embeddings";
  EmbedDB.attach := ["docs"];
|}.

Definition bad_query : EmbedDB.Flags := {|
  EmbedDB.sql := "SELECT nothing";
  EmbedDB.table := "embeddings";
  EmbedDB.attach := [];
|}.

#[global] Instance mem_driver : Driver value session := {|
  Open := mem_Open;
  Exec := mem_Exec;
  Query := mem_Query;
|}.

End MemDB.

(** ** Prompt parts and the prompt command *)

Module Genai.

(** [genai.Part]: [genai.Text], or [genai.Blob] (what [genai.ImageData]
    builds: a MIME type and the image bytes). *)
Inductive Part : Type :=
| Text (s : string)
| Blob (MIMEType : string) (Data : list Z).

(** What [model.GenerateContent(ctx, parts...)] or
    [model.GenerateContentStream(ctx, parts...)] is called with. *)
Record Request : Type := {
  req_model : string;
  req_stream : bool;
  req_parts : list Part;
}.

End Genai.

#[global] Instance outcome_ret : MRet outcome := @Done.
#[global] Instance outcome_bind : MBind outcome := fun A B k o =>
  match o with
  | Done a => k a
  | Fatal msg => Fatal msg
  | Panic msg => Panic msg
  end.

Module Prompt.
Import Genai.

(** What the command reads from its flags and its surroundings. *)
Record Env : Type := {
  apikey_Get : outcome string;        (* apikey.Get(cmd): the key, or log.Fatal *)
  system : string;                    (* --system, default "" *)
  model : string;                     (* --model *)
  stream : bool;                      (* --stream *)
  stdin_IsTerminal : bool;            (* isatty.IsTerminal(os.Stdin.Fd()) *)
  stdin_ReadAll : result string;      (* io.ReadAll(os.Stdin) *)
  NewClient : string -> option string; (* the error of genai.NewClient *)
}.

(** [func runPromptCmd(cmd *cobra.Command, args []string)], up to and
    including the call that sends the prompt parts to the model; the result
    is that call. *)
Definition runPromptCmd (env : Env) (args : list string) : outcome Request :=
  key ← apikey_Get env;
  let promptParts : list Part := [] in
  let promptParts :=
    if decide (system env ≠ "") then promptParts ++ [Text (system env)]
    else promptParts in
  promptParts ←
    (if negb (stdin_IsTerminal env) then
       match stdin_ReadAll env with
       | Err e => Fatal e
       | Ok b => Done (promptParts ++ [Text b])
       end
     else Done promptParts);
  let promptParts :=
    if decide (1 <= length args) then
      match args with
      | arg0 :: _ => promptParts ++ [Text arg0]
      | [] => promptParts
      end
    else promptParts in
  if decide (length promptParts = 0) then
    Fatal "expect a prompt from stdin and/or command-line argument"
  else
    match NewClient env key with
    | Some e => Fatal e
    | None =>
        Done {| req_model := model env; req_stream := stream env;
                req_parts := promptParts |}
    end.

(** The parts of a prompt in the order the specification gives: the system
    prompt if it is not empty, then the contents of standard input if there
    is one to read, then the first positional argument if there is one. *)
Definition prompt_parts (system : string) (stdin : option string)
    (args : list string) : list Part :=
  (if decide (system = "") then [] else [Text system])
  ++ match stdin with
     | Some b => [Text b]
     | None => []
     end
  ++ match args with
     | arg0 :: _ => [Text arg0]
     | [] => []
     end.

End Prompt.

(** ** The template command *)

Module Strings.

(** [strings.Count(s, substr)] for a non-empty [substr]: the number of
    non-overlapping instances; [skip] is the number of bytes of the last
    instance still to pass. *)
Fixpoint Count_from (s substr : string) (skip : nat) : nat :=
  match s with
  | EmptyString => 0
  | String _ s' =>
      match skip with
      | S skip' => Count_from s' substr skip'
      | O =>
          if String.prefix substr s
          then S (Count_from s' substr (String.length substr - 1))
          else Count_from s' substr 0
      end
  end.

Definition Count (s substr : string) : nat := Count_from s substr 0.

(** [strings.Replace(s, old, new, n)] for a non-empty [old] and [n >= 0]:
    the first [n] non-overlapping instances of [old] replaced by [new]. *)
Fixpoint Replace_from (s old new : string) (n skip : nat) : string :=
  match s with
  | EmptyString => EmptyString
  | String c s' =>
      match skip with
      | S skip' => Replace_from s' old new n skip'
      | O =>
          match n with
          | O => s
          | S n' =>
              if String.prefix old s
              then new +:+ Replace_from s' old new n' (String.length old - 1)
              else String c (Replace_from s' old new n 0)
          end
      end
  end.

Definition Replace (s old new : string) (n : nat) : string :=
  Replace_from s old new n 0.

End Strings.

Module Template.
Import Genai.

(** The flags of the [template] command. *)
Record Flags : Type := {
  flag_list : bool;     (* --list *)
  flag_add : string;    (* --add *)
  flag_use : string;    (* --use *)
  flag_temp : string;   (* --temp *)
}.

(** What a run of the command does. *)
Inductive action : Type :=
| Listed (templates : gmap string string)
| Added (line : string)
| Sent (req : Request) (temperature : option Z).

Section Command.
(** The helpers of the package that [runTemplateCmd] calls. *)
Variable argLooksLikeURL : string -> bool.
Variable getPartFromURL : string -> result Part.
Variable argLooksLikeFilename : string -> bool.
Variable getPartFromFile : string -> result Part.
(** The error of [newGenaiClient(ctx, cmd)]. *)
Variable newGenaiClient : option string.
(** [strconv.ParseFloat(tempValue, 32)] followed by [float32(f)], as the bit
    pattern of the float32. *)
Variable ParseFloat : string -> result Z.
(** The file system under [addTemplate]: [os.UserHomeDir], the error of
    [os.OpenFile] and the error of writing a line. *)
Variable UserHomeDir : result string.
Variable OpenFile : string -> option string.
Variable WriteString : string -> option string.

(** The map [templates], as [init] has read it from the templates file. *)
Variable templates : gmap string string.

Definition templateFilePath : string := "/.config/gemini-cli-templates".

(** [func addTemplate(key string, value string)] *)
Definition addTemplate (key value : string) : outcome string :=
  match UserHomeDir with
  | Err e => Fatal e
  | Ok homeDir =>
      match OpenFile (homeDir +:+ templateFilePath) with
      | Some e => Fatal e
      | None =>
          let line := key +:+ ":" +:+ value +:+ Fmt.nl in
          match WriteString line with
          | Some e => Fatal ("problem happened while writing to file:" +:+ e)
          | None => Done line
          end
      end
  end.

(** The loop [for _, arg := range args] that sorts the arguments into image
    parts and texts. *)
Fixpoint args_loop (args : list string) (promptParts : list Part)
    (textPrompt : list string) : outcome (list Part * list string) :=
  match args with
  | [] => Done (promptParts, textPrompt)
  | arg :: args' =>
      if argLooksLikeURL arg then
        match getPartFromURL arg with
        | Err e => Fatal e
        | Ok part => args_loop args' (promptParts ++ [part]) textPrompt
        end
      else if argLooksLikeFilename arg then
        match getPartFromFile arg with
        | Err e => Fatal e
        | Ok part => args_loop args' (promptParts ++ [part]) textPrompt
        end
      else args_loop args' promptParts (textPrompt ++ [arg])
  end.

(** The loop [for _, text := range textPrompt] that fills the placeholders;
    it stops at the first text for which no placeholder is left. *)
Fixpoint fill_loop (textPrompt : list string) (template : string)
    (placeholdersCnt : nat) : string :=
  match textPrompt with
  | [] => template
  | text :: textPrompt' =>
      if decide (0 < placeholdersCnt) then
        fill_loop textPrompt' (Strings.Replace template "%s" text 1)
                  (placeholdersCnt - 1)
      else template
  end.

(** [func runTemplateCmd(cmd *cobra.Command, args []string)], up to and
    including the call that sends the prompt parts to the model. *)
Definition runTemplateCmd (flags : Flags) (env : Prompt.Env)
    (args : list string) : outcome action :=
  if flag_list flags then Done (Listed templates)
  else
    let addKey := flag_add flags in
    if decide (addKey ≠ "" ∧ length args = 1) then
      match args with
      | arg0 :: _ => line ← addTemplate addKey arg0; Done (Added line)
      | [] => Panic "index out of range"
      end
    else
      let useKey := flag_use flags in
      if decide (useKey = "") then
        (* cmd.Flags().String("system", "", ""): the flag is defined after the
           command line was parsed, so its value is its default "" *)
        let env := {| Prompt.apikey_Get := Prompt.apikey_Get env;
                      Prompt.system := "";
                      Prompt.model := Prompt.model env;
                      Prompt.stream := Prompt.stream env;
                      Prompt.stdin_IsTerminal := Prompt.stdin_IsTerminal env;
                      Prompt.stdin_ReadAll := Prompt.stdin_ReadAll env;
                      Prompt.NewClient := Prompt.NewClient env |} in
        req ← Prompt.runPromptCmd env args; Done (Sent req None)
      else
        let template := default "" (templates !! useKey) in
        '(promptParts, textPrompt) ← args_loop args [] [];
        let placeholdersCnt := Strings.Count template "%s" in
        let template := fill_loop textPrompt template placeholdersCnt in
        let promptParts := promptParts ++ [Text template] in
        match newGenaiClient with
        | Some e => Fatal e
        | None =>
            temperature ←
              (if decide (flag_temp flags ≠ "") then
                 match ParseFloat (flag_temp flags) with
                 | Err e => Fatal ("problem parsing --temp value: " +:+ e)
                 | Ok f => Done (Some f)
                 end
               else Done None);
            Done (Sent {| req_model := Prompt.model env;
                          req_stream := Prompt.stream env;
                          req_parts := promptParts |} temperature)
        end.

(** An argument that the loop over the arguments turns into an image part,
    and the load of that part. *)
Definition is_image (arg : string) : bool :=
  argLooksLikeURL arg || argLooksLikeFilename arg.

Definition load_image (arg : string) : result Part :=
  if argLooksLikeURL arg then getPartFromURL arg else getPartFromFile arg.

(** The part an argument stands for in the words of the specification: the
    image part for an argument that names an image URL or an image file, a
    text part for any other argument. *)
Definition part_of_argument (arg : string) : result Part :=
  if is_image arg then load_image arg else Ok (Text arg).

(** Every argument is sent as its part. *)
Definition every_argument_sent (args : list string) (req : Request) : Prop :=
  ∀ arg : string, arg ∈ args →
    ∃ part : Part, part_of_argument arg = Ok part ∧ part ∈ req_parts req.

End Command.

(** The text that a template and the text arguments give, in the words of
    the command's usage: of the texts, only as many as the template has
    placeholders are used, and each of these in turn replaces the first
    [%s] that is left in the text. *)
Definition substituted (texts : list string) (template : string) : string :=
  foldl (λ text arg, Strings.Replace text "%s" arg 1) template
        (take (Strings.Count template "%s") texts).

(** An example surrounding: one image on line, one image file, one template. *)
Definition ex_argLooksLikeURL (arg : string) : bool :=
  String.prefix "https://" arg.
Definition ex_getPartFromURL (arg : string) : result Part :=
  if decide (arg = "https://example.com/dog.jpg")
  then Ok (Blob "jpeg" [0xff; 0xd8; 0xff]%Z)
  else Err "404 Not Found".
Definition ex_argLooksLikeFilename (arg : string) : bool :=
  bool_decide (arg = "cat.png").
Definition ex_getPartFromFile (arg : string) : result Part :=
  if decide (arg = "cat.png")
  then Ok (Blob "png" [0x89; 0x50; 0x4e; 0x47]%Z)
  else Err "no such file or directory".
Definition ex_templates : gmap string string :=
  {["tr" := "translate %s to english"]}.
Definition ex_flags : Flags :=
  {| flag_list := false; flag_add := ""; flag_use := "tr"; flag_temp := "" |}.
Definition ex_env : Prompt.Env := {|
  Prompt.apikey_Get := Done "secret";
  Prompt.system := "";
  Prompt.model := "gemini-pro";
  Prompt.stream := true;
  Prompt.stdin_IsTerminal := true;
  Prompt.stdin_ReadAll := Ok "";
  Prompt.NewClient := λ _, None;
|}.
Definition ex_run (args : list string) : outcome action :=
  runTemplateCmd ex_argLooksLikeURL ex_getPartFromURL ex_argLooksLikeFilename
    ex_getPartFromFile None (λ _, Err "invalid syntax")
    (Ok "/home/user") (λ _, None) (λ _, None) ex_templates ex_flags ex_env args.

End Template.

(** ** The root command and its API key *)

Module Root.
Import Genai.

(** [func getAPIKey(cmd *cobra.Command) string], on the value of [--key] and
    of the environment variable [API_KEY]. *)
Definition getAPIKey (flag_key env_API_KEY : string) : outcome string :=
  let token := flag_key in
  if decide (0 < String.length token) then Done token
  else
    let key := env_API_KEY in
    if decide (0 < String.length key) then Done key
    else
      Fatal "Unable to obtain API key for Google AI; use --key or API_KEY env var".

(** [func runRootCmd(cmd *cobra.Command, args []string)], up to and including
    the call of [model.GenerateContentStream]; of [env] it reads the flags
    [--system] and [--model], standard input and the client. *)
Definition runRootCmd (flag_key env_API_KEY : string) (env : Prompt.Env)
    (args : list string) : outcome Request :=
  key ← getAPIKey flag_key env_API_KEY;
  let promptParts : list Part := [] in
  let sysPrompt := Prompt.system env in
  let promptParts :=
    if decide (sysPrompt ≠ "") then promptParts ++ [Text sysPrompt]
    else promptParts in
  promptParts ←
    (if negb (Prompt.stdin_IsTerminal env) then
       match Prompt.stdin_ReadAll env with
       | Err e => Fatal e
       | Ok b => Done (promptParts ++ [Text b])
       end
     else Done promptParts);
  let promptParts :=
    if decide (1 <= length args) then
      match args with
      | arg0 :: _ => promptParts ++ [Text arg0]
      | [] => promptParts
      end
    else promptParts in
  if decide (length promptParts = 0) then
    Fatal "expect a prompt from stdin and/or command-line argument"
  else
    match Prompt.NewClient env key with
    | Some e => Fatal e
    | None =>
        Done {| req_model := Prompt.model env; req_stream := true;
                req_parts := promptParts |}
    end.

End Root.

(** ** Printing the reply of the model *)

Module Reply.
Import Genai.

(** [genai.Candidate] and [genai.GenerateContentResponse], as far as the
    commands read them: [content] is [None] for a nil [c.Content]. *)
Record Candidate : Type := { content : option (list Part) }.
Record Response : Type := { Candidates : list Candidate }.

Definition empty_response : string :=
  "<empty response from model>" +:+ Fmt.nl.

(** The strings of a list one after the other. *)
Fixpoint concat_strings (l : list string) : string :=
  match l with
  | [] => ""
  | s :: l' => s +:+ concat_strings l'
  end.

Section Printing.
(** [fmt.Sprint(part)] of a [genai.Part]. *)
Variable Sprint_part : Part → string.

(** [for _, part := range c.Content.Parts { fmt.Print(part) }] and the same
    loop with [fmt.Println], on what standard output holds so far. *)
Fixpoint Print_parts (parts : list Part) (stdout : string) : string :=
  match parts with
  | [] => stdout
  | part :: parts' => Print_parts parts' (stdout +:+ Sprint_part part)
  end.

Fixpoint Println_parts (parts : list Part) (stdout : string) : string :=
  match parts with
  | [] => stdout
  | part :: parts' =>
      Println_parts parts' (stdout +:+ Sprint_part part +:+ Fmt.nl)
  end.

(** The block [if len(resp.Candidates) < 1 { ... } else { ... }]; [ln] tells
    whether the parts are printed with [fmt.Println] (no streaming) or with
    [fmt.Print] (streaming). *)
Definition print_response (ln : bool) (resp : Response) (stdout : string)
  : string :=
  if decide (length (Candidates resp) < 1) then stdout +:+ empty_response
  else
    match Candidates resp with
    | c :: _ =>
        match content c with
        | Some parts =>
            if ln then Println_parts parts stdout else Print_parts parts stdout
        | None => stdout +:+ empty_response
        end
    | [] => stdout
    end.

(** The loop [for { resp, err := iter.Next() ... }]: [iter] lists what
    [Next] returns before [iterator.Done]. *)
Fixpoint stream_loop (iter : list (result Response)) (stdout : string)
  : outcome unit * string :=
  match iter with
  | [] => (Done tt, stdout)
  | Err e :: _ => (Fatal e, stdout)
  | Ok resp :: iter' => stream_loop iter' (print_response false resp stdout)
  end.

(** The end of [runPromptCmd] (and of [runTemplateCmd]), from
    [if stream := mustGetBoolFlag(cmd, "stream"); stream] on:
    [GenerateContentStream] lists what the iterator of the streaming call
    returns, [GenerateContent] is the result of the call without streaming. *)
Definition respond (stream : bool)
    (GenerateContentStream : list (result Response))
    (GenerateContent : result Response) (stdout : string)
  : outcome unit * string :=
  if stream then
    match stream_loop GenerateContentStream stdout with
    | (Done _, stdout) => (Done tt, stdout +:+ Fmt.nl)
    | (o, stdout) => (o, stdout)
    end
  else
    match GenerateContent with
    | Err e => (Fatal e, stdout)
    | Ok resp => (Done tt, print_response true resp stdout)
    end.

(** What one response adds to standard output while streaming. *)
Definition chunk (resp : Response) : string :=
  match Candidates resp with
  | {| content := Some parts |} :: _ =>
      concat_strings (Sprint_part <$> parts)
  | _ => empty_response
  end.

End Printing.

End Reply.

(** ** Reading the templates file *)

Module TemplateFile.

Fixpoint string_drop (n : nat) (s : string) : string :=
  match n, s with
  | S n', String _ s' => string_drop n' s'
  | _, _ => s
  end.

(** [strings.Cut(s, sep)]: the text before and after the first instance of
    [sep], and whether there is one. *)
Fixpoint Cut (s sep : string) : string * string * bool :=
  if String.prefix sep s
  then (EmptyString, string_drop (String.length sep) s, true)
  else
    match s with
    | EmptyString => (EmptyString, EmptyString, false)
    | String c s' =>
        let '(before, after, found) := Cut s' sep in
        (String c before, after, found)
    end.

Section Init.
(** [strings.TrimSpace]. *)
Variable TrimSpace : string → string.

(** The loop [for scanner.Scan() { ... }] of [init] over the lines the
    scanner yields; [templates] is the map so far. *)
Fixpoint scan_loop (lines : list string) (templates : gmap string string)
  : gmap string string :=
  match lines with
  | [] => templates
  | line :: lines' =>
      let '(key, value, ok) := Cut line ":" in
      if ok then
        let key := TrimSpace key in
        let value := TrimSpace value in
        scan_loop lines' (<[key := value]> templates)
      else scan_loop lines' templates
  end.

(** The part of [func init()] of the template command that reads the
    templates: [ScanLines path] lists the lines that the scanner yields on
    the file at [path]. *)
Definition init (UserHomeDir : result string)
    (OpenFile : string → option string) (ScanLines : string → list string)
  : outcome (gmap string string) :=
  match UserHomeDir with
  | Err e => Fatal e
  | Ok homeDir =>
      match OpenFile (homeDir +:+ Template.templateFilePath) with
      | Some e => Fatal e
      | None =>
          Done (scan_loop (ScanLines (homeDir +:+ Template.templateFilePath)) ∅)
      end
  end.

(** The key under which [init] files a line, if it files it. *)
Definition line_key (line : string) : option string :=
  let '(key, _, ok) := Cut line ":" in
  if ok then Some (TrimSpace key) else None.

End Init.

(** A string without the byte [c]. *)
Fixpoint free_of (c : ascii) (s : string) : bool :=
  match s with
  | EmptyString => true
  | String c' s' => negb (Ascii.eqb c' c) && free_of c s'
  end.



End TemplateFile.

(** ** What a run of the pipeline leaves in its history *)

Module History.
Import Sql.

(** The lines a history prints on standard output. *)
Definition printed (history : list event) : list string :=
  omap (λ ev, match ev_call ev with
              | fmt_Println line => Some line
              | _ => None
              end) history.

(** A command that only adds to the history, with [P] relating how it ends
    to what it adds. *)
Definition adds {A : Type} (m : M A) (P : outcome A → list event → Prop)
  : Prop :=
  ∀ t : list event, ∃ (o : outcome A) (tl : list event),
    m t = (o, t ++ tl) ∧ P o tl.

(** What the loop over the rows keeps: it prints nothing, and when it
    returns, every row has added one id and one text. *)
Definition loop_post {any : Type} (todo : list (result (list any)))
    (ids texts : list string) (o : outcome (list string * list string))
    (tl : list event) : Prop :=
  printed tl = [] ∧
  ∀ ids' texts', o = Done (ids', texts') →
    length ids' = length ids + length todo ∧
    length texts' = length texts + length todo.

(** The calls of a history on the database handle that open it or hand it
    a statement: [sql.Open], [db.Exec] and [db.Query], in the order made. *)
Definition database_calls (history : list event) : list call :=
  omap (λ ev, match ev_call ev with
              | sql_Open _ _ | DB_Exec _ | DB_Query _ => Some (ev_call ev)
              | _ => None
              end) history.

(** The ATTACH statement that a value of [--attach] asks for. *)
Definition attach_calls (attachPair : list string) : list call :=
  match attachPair with
  | [alias; path] => [DB_Exec (EmbedDB.attach_stmt path alias)]
  | _ => []
  end.

(** The whole of what [embed --db] opens, executes and queries. *)
Definition database_script (flags : EmbedDB.Flags) (dbPath : string)
  : list call :=
  [sql_Open "sqlite3" dbPath;
   DB_Exec (EmbedDB.create_table_stmt (EmbedDB.table flags))]
  ++ attach_calls (EmbedDB.attach flags)
  ++ [DB_Query (EmbedDB.sql flags)].

End History.

(** ** Examples for the template command *)

Module Examples.
Import Genai.

(** [strings.TrimSpace] on a string of ASCII bytes. *)
Fixpoint trim_left (s : string) : string :=
  match s with
  | String c s' => if Ascii.is_space c then trim_left s' else s
  | EmptyString => s
  end.

Definition TrimSpace (s : string) : string :=
  String.rev (trim_left (String.rev (trim_left s))).

(** The template command in the example surrounding, with its flags. *)
Definition run (flags : Template.Flags) (args : list string)
  : outcome Template.action :=
  Template.runTemplateCmd Template.ex_argLooksLikeURL Template.ex_getPartFromURL
    Template.ex_argLooksLikeFilename Template.ex_getPartFromFile None
    (λ _, Err "invalid syntax") (Ok "/home/user") (λ _, None) (λ _, None)
    Template.ex_templates flags Template.ex_env args.


Definition add_greet : Template.Flags :=
  {| Template.flag_list := false; Template.flag_add := "greet";
     Template.flag_use := ""; Template.flag_temp := "" |}.




End Examples.

(** * Part II: properties *)

(** ** The blob encoding *)

Section EmbeddingFacts.
Import Binary Embedding.
Local Open Scope Z_scope.

Lemma byte_testbit (x n : Z) :
  0 <= n -> Z.testbit (byte x) n = Z.testbit x n && (n <? 8).
Proof.
  intros Hn. unfold byte. change 255 with (Z.ones 8).
  rewrite Z.land_spec, Z.testbit_ones_nonneg by lia. reflexivity.
Qed.

Lemma byte_range (x : Z) : is_byte (byte x).
Proof.
  unfold is_byte, byte. change 255 with (Z.ones 8).
  rewrite Z.land_ones by lia. apply Z.mod_pos_bound. lia.
Qed.

Lemma uint32_high_bits (v n : Z) :
  is_uint32 v -> 32 <= n -> Z.testbit v n = false.
Proof.
  intros [Hlo Hhi] Hn.
  destruct (Z.eq_dec v 0) as [->|Hv]; [apply Z.bits_0|].
  apply Z.bits_above_log2; [lia|].
  assert (Z.log2 v < 32) by (apply Z.log2_lt_pow2; lia). lia.
Qed.

(** Reading back the four bytes of [PutUint32 v] gives [v]. *)
Lemma Uint32_PutUint32 (v : Z) :
  is_uint32 v ->
  Uint32 (byte v) (byte (Z.shiftr v 8)) (byte (Z.shiftr v 16))
         (byte (Z.shiftr v 24)) = v.
Proof.
  intros Hv. apply Z.bits_inj'. intros n Hn. unfold Uint32.
  rewrite !Z.lor_spec.
  destruct (Z.ltb_spec n 8).
  { rewrite !Z.shiftl_spec_low by lia. rewrite byte_testbit by lia.
    replace (n <? 8) with true by (symmetry; apply Z.ltb_lt; lia).
    rewrite andb_true_r, !orb_false_r. reflexivity. }
  rewrite (byte_testbit v) by lia.
  replace (n <? 8) with false by (symmetry; apply Z.ltb_ge; lia).
  rewrite andb_false_r. simpl.
  rewrite (Z.shiftl_spec _ 8) by lia.
  rewrite byte_testbit, Z.shiftr_spec by lia.
  replace (n - 8 + 8) with n by lia.
  destruct (Z.ltb_spec n 16).
  { rewrite !Z.shiftl_spec_low by lia.
    replace (n - 8 <? 8) with true by (symmetry; apply Z.ltb_lt; lia).
    rewrite andb_true_r, !orb_false_r. reflexivity. }
  replace (n - 8 <? 8) with false by (symmetry; apply Z.ltb_ge; lia).
  rewrite andb_false_r. simpl.
  rewrite (Z.shiftl_spec _ 16) by lia.
  rewrite byte_testbit, Z.shiftr_spec by lia.
  replace (n - 16 + 16) with n by lia.
  destruct (Z.ltb_spec n 24).
  { rewrite !Z.shiftl_spec_low by lia.
    replace (n - 16 <? 8) with true by (symmetry; apply Z.ltb_lt; lia).
    rewrite andb_true_r, !orb_false_r. reflexivity. }
  replace (n - 16 <? 8) with false by (symmetry; apply Z.ltb_ge; lia).
  rewrite andb_false_r. simpl.
  rewrite (Z.shiftl_spec _ 24) by lia.
  rewrite byte_testbit, Z.shiftr_spec by lia.
  replace (n - 24 + 24) with n by lia.
  destruct (Z.ltb_spec n 32).
  { replace (n - 24 <? 8) with true by (symmetry; apply Z.ltb_lt; lia).
    rewrite andb_true_r. reflexivity. }
  replace (n - 24 <? 8) with false by (symmetry; apply Z.ltb_ge; lia).
  rewrite andb_false_r. symmetry. apply uint32_high_bits; [assumption|lia].
Qed.


Lemma encode_loop_app (emb : list float32) (buf : Buffer) :
  encode_loop emb buf
  = Done (buf ++ flat_map (fun f => PutUint32 (Float32bits f)) emb).
Proof.
  revert buf. induction emb as [|f emb IH]; intros buf; simpl.
  - rewrite app_nil_r. reflexivity.
  - rewrite IH. rewrite <- app_assoc. reflexivity.
Qed.

Lemma blob_length (emb : list float32) :
  length (flat_map (fun f => PutUint32 (Float32bits f)) emb)
  = (4 * length emb)%nat.
Proof. induction emb as [|f emb IH]; simpl in *; lia. Qed.

Lemma blob_chunk (emb : list float32) (i : nat) (f : float32) :
  emb !! i = Some f ->
  take 4 (drop (4 * i) (flat_map (fun f => PutUint32 (Float32bits f)) emb))
  = PutUint32 (Float32bits f).
Proof.
  revert i. induction emb as [|g emb IH]; intros i Hi; [discriminate|].
  destruct i as [|i].
  - injection Hi as ->. reflexivity.
  - replace (4 * S i)%nat with (4 + 4 * i)%nat by lia.
    simpl in Hi. apply IH in Hi. exact Hi.
Qed.

Lemma decode_loop_words (n : nat) (b : Reader) (acc : list float32) :
  (4 * n <= length b)%nat ->
  decode_loop n b acc = Done (acc ++ words n b).
Proof.
  revert b acc. induction n as [|n IH]; intros b acc Hlen.
  - simpl. rewrite app_nil_r. reflexivity.
  - destruct b as [|b0 [|b1 [|b2 [|b3 b']]]]; simpl in Hlen; try lia.
    cbn [decode_loop Read words]. rewrite IH by lia.
    rewrite <- app_assoc. reflexivity.
Qed.

Lemma words_length (n : nat) (b : list Z) :
  (4 * n <= length b)%nat -> length (words n b) = n.
Proof.
  revert b. induction n as [|n IH]; intros b Hlen; [reflexivity|].
  destruct b as [|b0 [|b1 [|b2 [|b3 b']]]]; simpl in Hlen; try lia.
  simpl. rewrite IH by lia. reflexivity.
Qed.

Lemma words_lookup (n : nat) (b : list Z) (i : nat) :
  (4 * n <= length b)%nat -> (i < n)%nat ->
  words n b !! i
  = Some (Float32frombits
            (Uint32 (b !!! (4 * i)%nat) (b !!! (4 * i + 1)%nat)
                    (b !!! (4 * i + 2)%nat) (b !!! (4 * i + 3)%nat))).
Proof.
  revert b i. induction n as [|n IH]; intros b i Hlen Hi; [lia|].
  destruct b as [|b0 [|b1 [|b2 [|b3 b']]]]; simpl in Hlen; try lia.
  destruct i as [|i]; [reflexivity|].
  cbn [words]. rewrite lookup_cons_ne_0 by lia. simpl Nat.pred.
  rewrite IH by lia.
  replace (4 * S i)%nat with (S (S (S (S (4 * i))))) by lia.
  reflexivity.
Qed.

Lemma words_take (n : nat) (b : list Z) :
  words n (take (4 * n) b) = words n b.
Proof.
  revert b. induction n as [|n IH]; intros b; [reflexivity|].
  replace (4 * S n)%nat with (S (S (S (S (4 * n))))) by lia.
  destruct b as [|b0 [|b1 [|b2 [|b3 b']]]]; try reflexivity.
  simpl. rewrite <- (IH b'). reflexivity.
Qed.

Lemma words_blob (emb : list float32) (rest : list Z) :
  Forall is_float32 emb ->
  words (length emb)
        (flat_map (fun f => PutUint32 (Float32bits f)) emb ++ rest) = emb.
Proof.
  induction 1 as [|f emb Hf _ IH]; [reflexivity|].
  simpl. rewrite IH. unfold Float32frombits, Float32bits.
  rewrite Uint32_PutUint32 by exact Hf. reflexivity.
Qed.

Lemma byte_high_bits (b n : Z) : is_byte b -> 8 <= n -> Z.testbit b n = false.
Proof.
  intros [Hlo Hhi] Hn.
  destruct (Z.eq_dec b 0) as [->|Hb]; [apply Z.bits_0|].
  apply Z.bits_above_log2; [lia|].
  assert (Z.log2 b < 8) by (apply Z.log2_lt_pow2; lia). lia.
Qed.

(** The word of four bytes fits in 32 bits. *)
Lemma Uint32_range (b0 b1 b2 b3 : Z) :
  is_byte b0 -> is_byte b1 -> is_byte b2 -> is_byte b3 ->
  is_uint32 (Uint32 b0 b1 b2 b3).
Proof.
  intros H0 H1 H2 H3.
  assert (Hnonneg : 0 <= Uint32 b0 b1 b2 b3).
  { unfold Uint32, is_byte in *.
    repeat (apply Z.lor_nonneg; split); try apply Z.shiftl_nonneg; lia. }
  split; [exact Hnonneg|].
  destruct (Z.eq_dec (Uint32 b0 b1 b2 b3) 0) as [->|Hne]; [reflexivity|].
  apply Z.log2_lt_pow2; [lia|].
  destruct (Z.lt_ge_cases (Z.log2 (Uint32 b0 b1 b2 b3)) 32) as [Hlt|Hge];
    [exact Hlt|exfalso].
  assert (Hbit : Z.testbit (Uint32 b0 b1 b2 b3)
                           (Z.log2 (Uint32 b0 b1 b2 b3)) = true)
    by (apply Z.bit_log2; lia).
  revert Hbit. generalize (Z.log2 (Uint32 b0 b1 b2 b3)) Hge. intros n Hn.
  unfold Uint32. rewrite !Z.lor_spec, !Z.shiftl_spec by lia.
  rewrite (byte_high_bits b0 n), (byte_high_bits b1 (n - 8)),
    (byte_high_bits b2 (n - 16)), (byte_high_bits b3 (n - 24))
    by (assumption || lia).
  discriminate.
Qed.

(** On bytes, the decoded values are float32 bit patterns. *)
Lemma words_float32 (n : nat) (b : list Z) :
  Forall is_byte b -> Forall is_float32 (words n b).
Proof.
  revert b. induction n as [|n IH]; intros b Hb; [constructor|].
  destruct b as [|b0 [|b1 [|b2 [|b3 b']]]]; try constructor.
  - inversion Hb as [|? ? H0 Hb1]; subst.
    inversion Hb1 as [|? ? H1 Hb2]; subst.
    inversion Hb2 as [|? ? H2 Hb3]; subst.
    inversion Hb3 as [|? ? H3 Hb4]; subst.
    apply Uint32_range; assumption.
  - apply IH. do 4 (apply Forall_inv_tail in Hb). exact Hb.
Qed.

Lemma decodeEmbedding_float32 (b : list Z) (fs : list float32) :
  Forall is_byte b -> decodeEmbedding b = Done fs -> Forall is_float32 fs.
Proof.
  intros Hb. unfold decodeEmbedding, NewReader, Reader_Len.
  rewrite decode_loop_words by apply Nat.Div0.mul_div_le.
  intros [= <-]. apply words_float32. exact Hb.
Qed.

End EmbeddingFacts.

Section EmbeddingClaims.
Local Open Scope Z_scope.

(** C1.  Decoding the encoding of a slice of float32 values gives the slice
    back: [encodeEmbedding v] returns a blob, and [decodeEmbedding] of that
    blob returns [v] (equality of float32 values is equality of their bit
    patterns). *)
Theorem decodeEmbedding_encodeEmbedding (v : list Binary.float32) :
  Forall Binary.is_float32 v ->
  exists blob : list Z,
    Embedding.encodeEmbedding v = Done blob /\
    Embedding.decodeEmbedding blob = Done v.
Proof.
  intros Hv. eexists. split.
  - unfold Embedding.encodeEmbedding. rewrite encode_loop_app. reflexivity.
  - unfold Embedding.decodeEmbedding, Binary.NewReader, Binary.Reader_Len.
    cbn [app]. rewrite blob_length.
    replace (4 * length v / 4)%nat with (length v)
      by (rewrite Nat.mul_comm, Nat.div_mul; lia).
    rewrite decode_loop_words by (rewrite blob_length; lia).
    cbn [app]. rewrite <- (app_nil_r (flat_map _ v)).
    rewrite words_blob by exact Hv. reflexivity.
Qed.

Lemma decodeEmbedding_encodeEmbedding_witness :
  Forall Binary.is_float32 [0x3f800000; 0x7fc00000; 0x80000000; 0] /\
  exists blob : list Z,
    Embedding.encodeEmbedding [0x3f800000; 0x7fc00000; 0x80000000; 0]
    = Done blob /\
    Embedding.decodeEmbedding blob
    = Done [0x3f800000; 0x7fc00000; 0x80000000; 0].
Proof.
  assert (H : Forall Binary.is_float32 [0x3f800000; 0x7fc00000; 0x80000000; 0]).
  { repeat constructor; unfold Binary.is_float32, Binary.is_uint32; lia. }
  split; [exact H|].
  apply (decodeEmbedding_encodeEmbedding
           [0x3f800000; 0x7fc00000; 0x80000000; 0] H).
Defined.

(** C2.  [encodeEmbedding v] is a blob of exactly [4 * len(v)] bytes, and
    for every index [i] of [v] its bytes [4i .. 4i+3] are the little-endian
    serialization of [v[i]], the least significant byte of its bits first:
    nothing precedes, separates or follows the components. *)
Theorem encodeEmbedding_layout (v : list Binary.float32) :
  exists blob : list Z,
    Embedding.encodeEmbedding v = Done blob /\
    length blob = (4 * length v)%nat /\
    forall (i : nat) (f : Binary.float32),
      v !! i = Some f ->
      take 4 (drop (4 * i) blob)
      = [Binary.byte (Binary.Float32bits f);
         Binary.byte (Z.shiftr (Binary.Float32bits f) 8);
         Binary.byte (Z.shiftr (Binary.Float32bits f) 16);
         Binary.byte (Z.shiftr (Binary.Float32bits f) 24)].
Proof.
  eexists. split; [|split].
  - unfold Embedding.encodeEmbedding. rewrite encode_loop_app. reflexivity.
  - cbn [app]. apply blob_length.
  - intros i f Hi. cbn [app]. apply (blob_chunk v i f Hi).
Qed.

Lemma encodeEmbedding_layout_witness :
  exists blob : list Z,
    Embedding.encodeEmbedding [0x3f800000; 0xc0490fdb] = Done blob /\
    length blob = 8%nat /\
    take 4 (drop 4 blob) = [0xdb; 0x0f; 0x49; 0xc0].
Proof.
  destruct (encodeEmbedding_layout [0x3f800000; 0xc0490fdb])
    as (blob & Henc & Hlen & Hchunk).
  exists blob. split; [exact Henc|]. split; [exact Hlen|].
  exact (Hchunk 1%nat 0xc0490fdb eq_refl).
Defined.

(** C8.  [decodeEmbedding] returns on every byte slice, also on the empty
    one and on one whose length is no multiple of four: it yields exactly
    [len(b) / 4] values, the [i]-th being the little-endian word of bytes
    [4i .. 4i+3], and the up to three bytes after the last whole word do
    not matter. *)
Theorem decodeEmbedding_total (b : list Z) :
  exists fs : list Binary.float32,
    Embedding.decodeEmbedding b = Done fs /\
    length fs = (length b / 4)%nat /\
    (forall i : nat,
       (i < length b / 4)%nat ->
       fs !! i
       = Some (Binary.Float32frombits
                 (Binary.Uint32 (b !!! (4 * i)%nat) (b !!! (4 * i + 1)%nat)
                                (b !!! (4 * i + 2)%nat)
                                (b !!! (4 * i + 3)%nat)))) /\
    (length b - 4 * (length b / 4) <= 3)%nat /\
    Embedding.decodeEmbedding (take (4 * (length b / 4)) b) = Done fs.
Proof.
  pose proof (Nat.Div0.mul_div_le (length b) 4) as Hle.
  pose proof (Nat.mod_upper_bound (length b) 4 ltac:(lia)) as Hmod.
  pose proof (Nat.div_mod_eq (length b) 4) as Hdm.
  exists (Embedding.words (length b / 4) b).
  unfold Embedding.decodeEmbedding, Binary.NewReader, Binary.Reader_Len.
  split; [|split; [|split; [|split]]].
  - rewrite decode_loop_words by exact Hle. reflexivity.
  - apply words_length. exact Hle.
  - intros i Hi. apply words_lookup; [exact Hle|exact Hi].
  - lia.
  - rewrite length_take, Nat.min_l by exact Hle.
    replace (4 * (length b / 4) / 4)%nat with (length b / 4)%nat
      by (rewrite Nat.mul_comm, Nat.div_mul; lia).
    rewrite decode_loop_words by (rewrite length_take; lia).
    rewrite words_take. reflexivity.
Qed.

Lemma decodeEmbedding_total_witness :
  Embedding.decodeEmbedding [0xdb; 0x0f; 0x49; 0x40; 1; 2; 3]
  = Done [0x40490fdb] /\
  Embedding.decodeEmbedding [] = Done [] /\
  Embedding.decodeEmbedding [1; 2; 3] = Done [].
Proof.
  destruct (decodeEmbedding_total [0xdb; 0x0f; 0x49; 0x40; 1; 2; 3])
    as (fs & Hdec & Hlen & Hword & _ & _).
  split; [|split; reflexivity].
  rewrite Hdec. f_equal.
  destruct fs as [|f [|g fs]]; try discriminate Hlen.
  specialize (Hword 0%nat ltac:(simpl; lia)).
  injection Hword as ->. reflexivity.
Defined.

End EmbeddingClaims.

(** ** The embed --db pipeline *)

Section PipelineFacts.
Import Sql EmbedDB.
Context {any DB : Type} `{!Driver any DB}.
Variable Sprintf_v : any → string.

Lemma orderly_ret {A : Type} (a : A) : orderly (mret a : M A).
Proof.
  intros t. exists (Done a), []. split.
  - rewrite app_nil_r. reflexivity.
  - intros i c e Hi. discriminate Hi.
Qed.

Lemma orderly_log_Fatal {A : Type} (msg : string) : orderly (@log_Fatal A msg).
Proof.
  intros t. exists (Fatal msg), []. split.
  - rewrite app_nil_r. reflexivity.
  - intros i c e Hi. discriminate Hi.
Qed.

Lemma orderly_panic {A : Type} (msg : string) : orderly (@panic A msg).
Proof.
  intros t. exists (Panic msg), []. split.
  - rewrite app_nil_r. reflexivity.
  - intros i c e Hi. discriminate Hi.
Qed.

Lemma orderly_bind {A B : Type} (m : M A) (k : A → M B) :
  orderly m → (∀ a, orderly (k a)) → orderly (m ≫= k).
Proof.
  intros Hm Hk t. destruct (Hm t) as (o & tl & Hrun & Hstop).
  unfold mbind, M_bind, bind. rewrite Hrun.
  destruct o as [a|msg|msg].
  - destruct (Hk a (t ++ tl)) as (o' & tl' & Hrun' & Hstop').
    exists o', (tl ++ tl'). rewrite Hrun', app_assoc. split; [reflexivity|].
    intros i c e Hi. destruct (decide (i < length tl)) as [Hlt|Hge].
    + rewrite lookup_app_l in Hi by exact Hlt.
      destruct (Hstop i c e Hi) as [[] _].
    + rewrite lookup_app_r in Hi by lia.
      destruct (Hstop' _ c e Hi) as [Hab Hlen].
      split; [exact Hab|]. rewrite length_app. lia.
  - exists (Fatal msg), tl. split; [reflexivity|].
    intros i c e Hi. destruct (Hstop i c e Hi) as [_ Hlen].
    split; [exact I|exact Hlen].
  - exists (Panic msg), tl. split; [reflexivity|].
    intros i c e Hi. destruct (Hstop i c e Hi) as [_ Hlen].
    split; [exact I|exact Hlen].
Qed.

Lemma orderly_called_None {A : Type} (c : call) (k : M A) :
  orderly k → orderly (called c None;; k).
Proof.
  intros Hk. apply orderly_bind; [|intros _; exact Hk].
  intros t. exists (Done tt), [Event c None]. split; [reflexivity|].
  intros [|i] c' e Hi; simpl in Hi; discriminate Hi.
Qed.

Lemma orderly_called_Fatal {A : Type} (c : call) (e msg : string) :
  orderly (called c (Some e);; @log_Fatal A msg).
Proof.
  intros t. exists (Fatal msg), [Event c (Some e)]. split; [reflexivity|].
  intros [|i] c' e' Hi; simpl in Hi; [|discriminate Hi].
  split; [exact I|reflexivity].
Qed.

Lemma orderly_called_panic {A : Type} (c : call) (e msg : string) :
  orderly (called c (Some e);; @panic A msg).
Proof.
  intros t. exists (Panic msg), [Event c (Some e)]. split; [reflexivity|].
  intros [|i] c' e' Hi; simpl in Hi; [|discriminate Hi].
  split; [exact I|reflexivity].
Qed.

Lemma orderly_scanRowIntoSlice (rows : Rows any) (row : result (list any)) :
  orderly (scanRowIntoSlice rows row).
Proof.
  unfold scanRowIntoSlice. destruct (columns rows) as [colNames|e]; simpl.
  - apply orderly_called_None.
    destruct (Scan row (length colNames)) as [values|e]; simpl.
    + apply orderly_called_None, orderly_ret.
    + apply orderly_called_Fatal.
  - apply orderly_called_panic.
Qed.

Lemma orderly_rows_loop (rows : Rows any) (todo : list (result (list any)))
    (ids texts : list string) :
  orderly (rows_loop Sprintf_v rows todo ids texts).
Proof.
  revert ids texts. induction todo as [|row todo IH]; intros ids texts; simpl.
  - apply orderly_called_None, orderly_ret.
  - apply orderly_called_None, orderly_bind.
    + apply orderly_scanRowIntoSlice.
    + intros values. case_decide; [apply orderly_log_Fatal|].
      destruct values as [|id rest]; [apply orderly_panic|apply IH].
Qed.

Lemma orderly_query_rows (db : DB) (sqlMode : string) :
  orderly (query_rows Sprintf_v db sqlMode).
Proof.
  unfold query_rows. destruct (Query db sqlMode) as [db' [rows|e]]; simpl.
  - apply orderly_called_None, orderly_bind; [apply orderly_rows_loop|].
    intros [ids texts]. destruct (iter_err rows) as [e|].
    + apply orderly_called_Fatal.
    + apply orderly_called_None, orderly_ret.
  - apply orderly_called_Fatal.
Qed.

Lemma orderly_attach_database (db : DB) (attachPair : list string) :
  orderly (attach_database db attachPair).
Proof.
  unfold attach_database. case_decide; [|apply orderly_ret].
  case_decide; [apply orderly_log_Fatal|].
  destruct attachPair as [|alias [|path ?]]; try apply orderly_panic.
  destruct (Exec db (attach_stmt path alias)) as [db' [e|]].
  - apply orderly_called_Fatal.
  - apply orderly_called_None, orderly_ret.
Qed.

Lemma orderly_embedModeDB (flags : Flags) (args : list string) (dbPath : string) :
  orderly (embedModeDB Sprintf_v flags args dbPath).
Proof.
  unfold embedModeDB. destruct (Open "sqlite3" dbPath) as [db|e]; simpl.
  2: apply orderly_called_Fatal.
  apply orderly_called_None.
  destruct (Exec db (create_table_stmt (table flags))) as [db' [e|]].
  1: apply orderly_called_Fatal.
  apply orderly_called_None, orderly_bind.
  - case_decide; [|apply orderly_panic].
    apply orderly_bind; [apply orderly_attach_database|].
    intros db''. apply orderly_query_rows.
  - intros [[db'' ids] texts].
    apply orderly_called_None, orderly_called_None, orderly_ret.
Qed.

(** *** Running the blocks *)

Lemma run_bind {A B : Type} (m : M A) (k : A → M B) (t t' : list event)
    (o : outcome A) :
  m t = (o, t') →
  (m ≫= k) t = match o with
               | Done a => k a t'
               | Fatal msg => (Fatal msg, t')
               | Panic msg => (Panic msg, t')
               end.
Proof.
  intros Hm. unfold mbind, M_bind, bind. rewrite Hm.
  destruct o; reflexivity.
Qed.

Lemma run_called {A : Type} (c : call) (err : option string) (k : M A)
    (t : list event) :
  (called c err;; k) t = k (t ++ [Event c err]).
Proof. reflexivity. Qed.

Lemma attach_database_none (db : DB) (t : list event) :
  attach_database db [] t = (Done db, t).
Proof. reflexivity. Qed.

Lemma attach_database_pair (db db' : DB) (alias path : string)
    (err : option string) (t : list event) :
  Exec db (attach_stmt path alias) = (db', err) →
  attach_database db [alias; path] t
  = (match err with
     | Some e => Fatal ("unable to attach " +:+ path +:+ ": " +:+ e)
     | None => Done db'
     end,
     t ++ [Event (DB_Exec (attach_stmt path alias)) err]).
Proof.
  intros HExec. unfold attach_database. simpl. rewrite HExec.
  rewrite run_called. destruct err; reflexivity.
Qed.

Lemma attach_database_malformed (db : DB) (attachPair : list string)
    (t : list event) :
  attachPair ≠ [] → length attachPair ≠ 2 →
  attach_database db attachPair t
  = (Fatal "expect <alias>,<db path> pair for --attach", t).
Proof.
  intros Hne Hlen. unfold attach_database.
  destruct attachPair as [|a l]; [congruence|].
  rewrite decide_True by (simpl; lia).
  rewrite decide_True by exact Hlen. reflexivity.
Qed.

(** The first call of [query_rows] is the query, on the session it is
    given. *)
Lemma query_rows_first_call (db : DB) (sqlMode : string) (t : list event) :
  ∃ (o : outcome (DB * list string * list string)) (tl : list event),
    query_rows Sprintf_v db sqlMode t
    = (o, t ++ Event (DB_Query sqlMode) (error_of (Query db sqlMode).2) :: tl).
Proof.
  unfold query_rows. destruct (Query db sqlMode) as [db' [rows|e]]; simpl.
  - rewrite run_called.
    assert (Hrest : orderly
              ('(ids, texts) ← rows_loop Sprintf_v rows (pending rows) [] [];
               called Rows_Err (iter_err rows);;
               match iter_err rows with
               | Some e => log_Fatal ("error scanning DB:" +:+ e)
               | None => mret (db', ids, texts)
               end)).
    { apply orderly_bind; [apply orderly_rows_loop|].
      intros [ids texts]. destruct (iter_err rows) as [e|].
      - apply orderly_called_Fatal.
      - apply orderly_called_None, orderly_ret. }
    destruct (Hrest (t ++ [Event (DB_Query sqlMode) None]))
      as (o & tl & Hrun & _).
    exists o, tl. rewrite Hrun, <- app_assoc. reflexivity.
  - exists (Fatal ("error running SQL query:" +:+ e)), [].
    rewrite run_called. reflexivity.
Qed.

(** Once the steps before the query have succeeded, the run is the run of
    [query_rows] followed by the two printed lines. *)
Lemma embedModeDB_from_query (flags : Flags) (args : list string)
    (dbPath : string) (db0 db1 db : DB) (t0 : list event) :
  sql flags ≠ "" →
  Open "sqlite3" dbPath = Ok db0 →
  Exec db0 (create_table_stmt (table flags)) = (db1, None) →
  attach_database db1 (attach flags)
    [Event (sql_Open "sqlite3" dbPath) None;
     Event (DB_Exec (create_table_stmt (table flags))) None]
  = (Done db, t0) →
  ∀ o t1,
    query_rows Sprintf_v db (sql flags) t0 = (o, t1) →
    run (embedModeDB Sprintf_v flags args dbPath)
    = match o with
      | Done (db', ids, texts) =>
          (Done (db', ids, texts),
           t1 ++ [Event (fmt_Println (Fmt.Sprint_strings ids)) None;
                  Event (fmt_Println (Fmt.Sprint_strings texts)) None])
      | Fatal msg => (Fatal msg, t1)
      | Panic msg => (Panic msg, t1)
      end.
Proof.
  intros Hsql HOpen HExec Hattach o t1 Hquery.
  unfold run, embedModeDB. rewrite HOpen. cbn [error_of].
  rewrite run_called, HExec, run_called. cbn [app].
  rewrite decide_True by exact Hsql.
  erewrite run_bind; cycle 1.
  { erewrite run_bind by exact Hattach. exact Hquery. }
  destruct o as [[[db' ids] texts]|msg|msg]; try reflexivity.
  rewrite !run_called. unfold mret, M_ret, ret.
  rewrite <- app_assoc. reflexivity.
Qed.

Lemma reaches_query_attach (flags : Flags) (dbPath : string) (db : DB) :
  reaches_query flags dbPath db →
  ∃ (db0 db1 : DB) (t0 : list event),
    sql flags ≠ "" ∧
    Open "sqlite3" dbPath = Ok db0 ∧
    Exec db0 (create_table_stmt (table flags)) = (db1, None) ∧
    attach_database db1 (attach flags)
      [Event (sql_Open "sqlite3" dbPath) None;
       Event (DB_Exec (create_table_stmt (table flags))) None]
    = (Done db, t0).
Proof.
  intros (Hsql & db0 & db1 & HOpen & HExec & Hattach).
  exists db0, db1.
  destruct Hattach as [[Hnil ->]|(alias & path & Hpair & HExec2)].
  - eexists. repeat split; try eassumption.
    rewrite Hnil. apply attach_database_none.
  - eexists. repeat split; try eassumption.
    rewrite Hpair. rewrite (attach_database_pair _ _ _ _ _ _ HExec2).
    reflexivity.
Qed.

(** *** The loop over the rows *)

Lemma scanRowIntoSlice_values (rows : Rows any) (names : list string)
    (values : list any) (t : list event) :
  columns rows = Ok names →
  length values = length names →
  scanRowIntoSlice rows (Ok values) t
  = (Done values, t ++ [Event Rows_Columns None; Event Rows_Scan None]).
Proof.
  intros Hcols Hlen. unfold scanRowIntoSlice. rewrite Hcols. cbn [error_of].
  rewrite run_called. unfold Scan. rewrite decide_True by exact Hlen.
  cbn [error_of]. rewrite run_called, <- app_assoc. reflexivity.
Qed.

Lemma rows_loop_pairs (rows : Rows any) (names : list string)
    (rs : list (any * list any)) (ids texts : list string) (t : list event) :
  columns rows = Ok names →
  2 ≤ length names →
  Forall (λ r, S (length r.2) = length names) rs →
  (rows_loop Sprintf_v rows ((λ r, Ok (r.1 :: r.2)) <$> rs) ids texts t).1
  = Done (ids ++ ((λ r, Sprintf_v r.1) <$> rs),
          texts ++ ((λ r, Fmt.strings_Join (Sprintf_v <$> r.2) " ") <$> rs)).
Proof.
  intros Hcols Hnames Hrs. revert ids texts t.
  induction Hrs as [|[c0 cs] rs Hr _ IH]; intros ids texts t.
  - cbn [fmap list_fmap rows_loop]. rewrite run_called, !app_nil_r.
    reflexivity.
  - cbn [fmap list_fmap rows_loop fst snd]. cbn [fst snd] in Hr.
    rewrite run_called.
    erewrite run_bind
      by (apply (scanRowIntoSlice_values _ names); [exact Hcols|exact Hr]).
    cbv beta iota. rewrite decide_False by (simpl; lia).
    rewrite IH. rewrite <- !app_assoc. reflexivity.
Qed.

End PipelineFacts.

Section PipelineClaims.
Import Sql EmbedDB.
Context {any DB : Type} `{!Driver any DB}.
Variable Sprintf_v : any → string.

Lemma query_rows_pairs (db db' : DB) (sqlMode : string) (rows : Rows any)
    (names : list string) (rs : list (any * list any)) (t : list event) :
  Query db sqlMode = (db', Ok rows) →
  columns rows = Ok names →
  iter_err rows = None →
  2 ≤ length names →
  pending rows = (λ r, Ok (r.1 :: r.2)) <$> rs →
  Forall (λ r, S (length r.2) = length names) rs →
  ∃ t1 : list event,
    query_rows Sprintf_v db sqlMode t
    = (Done (db', (λ r, Sprintf_v r.1) <$> rs,
             (λ r, Fmt.strings_Join (Sprintf_v <$> r.2) " ") <$> rs), t1).
Proof.
  intros HQuery Hcols Herr Hnames Hpending Hrs.
  unfold query_rows. rewrite HQuery. cbn [error_of]. rewrite run_called.
  pose proof (rows_loop_pairs Sprintf_v rows names rs [] []
                (t ++ [Event (DB_Query sqlMode) None]) Hcols Hnames Hrs)
    as Hloop.
  rewrite <- Hpending in Hloop.
  destruct (rows_loop Sprintf_v rows (pending rows) [] []
              (t ++ [Event (DB_Query sqlMode) None])) as [o t1] eqn:Hrun.
  cbn [fst app] in Hloop. subst o.
  erewrite run_bind by exact Hrun. cbv beta iota.
  rewrite Herr, run_called. eexists. reflexivity.
Qed.

Lemma query_rows_short_row (db db' : DB) (sqlMode : string) (rows : Rows any)
    (names : list string) (values : list any)
    (todo : list (result (list any))) (t : list event) :
  Query db sqlMode = (db', Ok rows) →
  columns rows = Ok names →
  pending rows = Ok values :: todo →
  length values = length names →
  length values < 2 →
  ∃ t1 : list event,
    query_rows Sprintf_v db sqlMode t
    = (Fatal ("expect at least 2 columns from query; got "
              +:+ Fmt.Sprint_int (length values)), t1).
Proof.
  intros HQuery Hcols Hpending Hlen Hshort.
  unfold query_rows. rewrite HQuery. cbn [error_of]. rewrite run_called.
  rewrite Hpending. cbn [rows_loop].
  erewrite run_bind; cycle 1.
  { rewrite run_called. erewrite run_bind
      by (apply (scanRowIntoSlice_values _ names); [exact Hcols|exact Hlen]).
    cbv beta iota. rewrite decide_True by exact Hshort. reflexivity. }
  eexists. reflexivity.
Qed.

(** C9.  In SQL mode, once the query has run: if the rows have fewer than
    two columns the run aborts at the first row; otherwise, for the rows
    [c0, c1, ..., cn] in the order of the result, the ids are the [%v]
    formattings of the [c0] and the texts are the [%v] formattings of
    [c1 .. cn] joined by one space, in column order. *)
Theorem embedModeDB_ids_and_texts (flags : Flags) (args : list string)
    (dbPath : string) (db db' : DB) (rows : Rows any) (names : list string) :
  reaches_query flags dbPath db →
  Query db (sql flags) = (db', Ok rows) →
  columns rows = Ok names →
  (∀ (values : list any) (todo : list (result (list any))),
     pending rows = Ok values :: todo →
     length values = length names →
     length values < 2 →
     (run (embedModeDB Sprintf_v flags args dbPath)).1
     = Fatal ("expect at least 2 columns from query; got "
              +:+ Fmt.Sprint_int (length values))) ∧
  (∀ rs : list (any * list any),
     pending rows = (λ r, Ok (r.1 :: r.2)) <$> rs →
     Forall (λ r, S (length r.2) = length names) rs →
     2 ≤ length names →
     iter_err rows = None →
     (run (embedModeDB Sprintf_v flags args dbPath)).1
     = Done (db', (λ r, Sprintf_v r.1) <$> rs,
             (λ r, Fmt.strings_Join (Sprintf_v <$> r.2) " ") <$> rs)).
Proof.
  intros Hreach HQuery Hcols.
  destruct (reaches_query_attach _ _ _ Hreach)
    as (db0 & db1 & t0 & Hsql & HOpen & HExec & Hattach).
  split.
  - intros values todo Hpending Hlen Hshort.
    destruct (query_rows_short_row db db' (sql flags) rows names values todo
                t0 HQuery Hcols Hpending Hlen Hshort) as [t1 Hrun].
    rewrite (embedModeDB_from_query Sprintf_v flags args dbPath db0 db1 db t0
               Hsql HOpen HExec Hattach _ _ Hrun).
    reflexivity.
  - intros rs Hpending Hrs Hnames Herr.
    destruct (query_rows_pairs db db' (sql flags) rows names rs t0
                HQuery Hcols Herr Hnames Hpending Hrs) as [t1 Hrun].
    rewrite (embedModeDB_from_query Sprintf_v flags args dbPath db0 db1 db t0
               Hsql HOpen HExec Hattach _ _ Hrun).
    reflexivity.
Qed.

(** C5.  In SQL mode, after the database has been opened and the table
    created: an [--attach] pair [alias,path] is attached under [alias] by the
    call just before the query, and the query runs on the session that the
    ATTACH statement leaves; an [--attach] value that is given but has not
    exactly two elements aborts the run before any query; a failing ATTACH
    aborts it as well. *)
Theorem embedModeDB_attach (flags : Flags) (args : list string)
    (dbPath : string) (db0 db1 : DB) :
  sql flags ≠ "" →
  Open "sqlite3" dbPath = Ok db0 →
  Exec db0 (create_table_stmt (table flags)) = (db1, None) →
  (∀ (alias path : string) (db2 : DB),
     attach flags = [alias; path] →
     Exec db1 (attach_stmt path alias) = (db2, None) →
     ∃ (out : outcome (DB * list string * list string)) (tl : list event),
       run (embedModeDB Sprintf_v flags args dbPath)
       = (out,
          [Event (sql_Open "sqlite3" dbPath) None;
           Event (DB_Exec (create_table_stmt (table flags))) None;
           Event (DB_Exec (attach_stmt path alias)) None;
           Event (DB_Query (sql flags))
                 (error_of (Query db2 (sql flags)).2)] ++ tl)) ∧
  (attach flags ≠ [] →
   length (attach flags) ≠ 2 →
   run (embedModeDB Sprintf_v flags args dbPath)
   = (Fatal "expect <alias>,<db path> pair for --attach",
      [Event (sql_Open "sqlite3" dbPath) None;
       Event (DB_Exec (create_table_stmt (table flags))) None])) ∧
  (∀ (alias path e : string) (db2 : DB),
     attach flags = [alias; path] →
     Exec db1 (attach_stmt path alias) = (db2, Some e) →
     run (embedModeDB Sprintf_v flags args dbPath)
     = (Fatal ("unable to attach " +:+ path +:+ ": " +:+ e),
        [Event (sql_Open "sqlite3" dbPath) None;
         Event (DB_Exec (create_table_stmt (table flags))) None;
         Event (DB_Exec (attach_stmt path alias)) (Some e)])).
Proof.
  intros Hsql HOpen HExec. split; [|split].
  - intros alias path db2 Hpair HExec2.
    pose proof (attach_database_pair db1 db2 alias path None
                  [Event (sql_Open "sqlite3" dbPath) None;
                   Event (DB_Exec (create_table_stmt (table flags))) None]
                  HExec2) as Hattach.
    rewrite <- Hpair in Hattach at 1.
    destruct (query_rows_first_call Sprintf_v db2 (sql flags)
                ([Event (sql_Open "sqlite3" dbPath) None;
                  Event (DB_Exec (create_table_stmt (table flags))) None]
                 ++ [Event (DB_Exec (attach_stmt path alias)) None]))
      as (o & tl & Hrun).
    rewrite (embedModeDB_from_query Sprintf_v flags args dbPath db0 db1 db2 _
               Hsql HOpen HExec Hattach _ _ Hrun).
    destruct o as [[[db' ids] texts]|msg|msg]; eexists _, _;
      cbn [app]; reflexivity.
  - intros Hne Hlen. unfold run, embedModeDB. rewrite HOpen. cbn [error_of].
    rewrite run_called, HExec, run_called. cbn [app].
    rewrite decide_True by exact Hsql.
    erewrite run_bind; cycle 1.
    { erewrite run_bind
        by (apply attach_database_malformed; [exact Hne|exact Hlen]).
      reflexivity. }
    reflexivity.
  - intros alias path e db2 Hpair HExec2.
    unfold run, embedModeDB. rewrite HOpen. cbn [error_of].
    rewrite run_called, HExec, run_called. cbn [app].
    rewrite decide_True by exact Hsql.
    erewrite run_bind; cycle 1.
    { erewrite run_bind
        by (rewrite Hpair; apply (attach_database_pair _ _ _ _ _ _ HExec2)).
      reflexivity. }
    reflexivity.
Qed.

(** C6.  No step of the pipeline is recovered from: whatever call of a run
    returns an error (opening the database, creating the table, attaching,
    the query, the scan of a row, the iteration over the rows), the run is
    aborted and that call is the last one it made. *)
Theorem embedModeDB_stops_at_error (flags : Flags) (args : list string)
    (dbPath : string) (i : nat) (c : call) (e : string) :
  (run (embedModeDB Sprintf_v flags args dbPath)).2 !! i
  = Some (Event c (Some e)) →
  aborted (run (embedModeDB Sprintf_v flags args dbPath)).1 ∧
  length (run (embedModeDB Sprintf_v flags args dbPath)).2 = S i.
Proof.
  intros Hi.
  destruct (orderly_embedModeDB Sprintf_v flags args dbPath [])
    as (o & tl & Hrun & Hstop).
  unfold run in *. rewrite Hrun in *. cbn [fst snd app] in *.
  exact (Hstop i c e Hi).
Qed.

(** C4 (as the code has it).  Without an SQL query the run reads no input
    from anywhere: it calls nothing but [sql.Open] and the CREATE TABLE
    statement and ends in an abort, which is the panic "only sql for now"
    when these two calls succeed. *)
Theorem embedModeDB_only_sql (flags : Flags) (args : list string)
    (dbPath : string) :
  sql flags = "" →
  aborted (run (embedModeDB Sprintf_v flags args dbPath)).1 ∧
  Forall (λ ev, ev_call ev = sql_Open "sqlite3" dbPath ∨
                ev_call ev = DB_Exec (create_table_stmt (table flags)))
         (run (embedModeDB Sprintf_v flags args dbPath)).2 ∧
  (∀ db0 db1 : DB,
     Open "sqlite3" dbPath = Ok db0 →
     Exec db0 (create_table_stmt (table flags)) = (db1, None) →
     run (embedModeDB Sprintf_v flags args dbPath)
     = (Panic "only sql for now",
        [Event (sql_Open "sqlite3" dbPath) None;
         Event (DB_Exec (create_table_stmt (table flags))) None])).
Proof.
  intros Hsql. unfold run, embedModeDB.
  destruct (Open "sqlite3" dbPath) as [db0|e]; cbn [error_of].
  - rewrite run_called.
    destruct (Exec db0 (create_table_stmt (table flags)))
      as [db1 [e|]] eqn:HExec.
    + rewrite run_called. cbn. split; [exact I|]. split.
      * constructor; [left; reflexivity|].
        constructor; [right; reflexivity|]. constructor.
      * intros db0' db1' [= <-] HExec'. rewrite HExec in HExec'.
        discriminate HExec'.
    + rewrite run_called. rewrite decide_False by (rewrite Hsql; tauto).
      cbn. split; [exact I|]. split.
      * constructor; [left; reflexivity|].
        constructor; [right; reflexivity|]. constructor.
      * reflexivity.
  - rewrite run_called. cbn. split; [exact I|]. split.
    + constructor; [left; reflexivity|]. constructor.
    + intros ? ? [=].
Qed.

(** *** The calls of a run *)

Lemma calls_only_ret {A : Type} (P : call → Prop) (a : A) :
  calls_only P (mret a : M A).
Proof.
  intros t. exists (Done a), []. rewrite app_nil_r. split; [reflexivity|].
  constructor.
Qed.

Lemma calls_only_log_Fatal {A : Type} (P : call → Prop) (msg : string) :
  calls_only P (@log_Fatal A msg).
Proof.
  intros t. exists (Fatal msg), []. rewrite app_nil_r. split; [reflexivity|].
  constructor.
Qed.

Lemma calls_only_panic {A : Type} (P : call → Prop) (msg : string) :
  calls_only P (@panic A msg).
Proof.
  intros t. exists (Panic msg), []. rewrite app_nil_r. split; [reflexivity|].
  constructor.
Qed.

Lemma calls_only_bind {A B : Type} (P : call → Prop) (m : M A) (k : A → M B) :
  calls_only P m → (∀ a, calls_only P (k a)) → calls_only P (m ≫= k).
Proof.
  intros Hm Hk t. destruct (Hm t) as (o & tl & Hrun & Htl).
  rewrite (run_bind m k t (t ++ tl) o Hrun).
  destruct o as [a|msg|msg].
  - destruct (Hk a (t ++ tl)) as (o' & tl' & Hrun' & Htl').
    exists o', (tl ++ tl'). rewrite Hrun', app_assoc. split; [reflexivity|].
    apply Forall_app. split; assumption.
  - exists (Fatal msg), tl. split; [reflexivity|exact Htl].
  - exists (Panic msg), tl. split; [reflexivity|exact Htl].
Qed.

Lemma calls_only_called {A : Type} (P : call → Prop) (c : call)
    (err : option string) (k : M A) :
  P c → calls_only P k → calls_only P (called c err;; k).
Proof.
  intros Hc Hk. apply calls_only_bind; [|intros _; exact Hk].
  intros t. exists (Done tt), [Event c err]. split; [reflexivity|].
  constructor; [exact Hc|constructor].
Qed.

(** Whatever the database does, the history of a run holds nothing but
    [sql.Open] on the database path, the CREATE TABLE statement, the ATTACH
    statement of the [--attach] pair, the query, the cursor over its rows and
    [fmt.Println].  (The history records no [Close]: the deferred
    [db.Close()] and [rows.Close()] of the source are not among its
    calls.) *)
Lemma embedModeDB_calls (flags : Flags) (args : list string) (dbPath : string) :
  calls_only (pipeline_call flags dbPath)
             (embedModeDB Sprintf_v flags args dbPath).
Proof.
  assert (Hscan : ∀ (rows : Rows any) (row : result (list any)),
            calls_only (pipeline_call flags dbPath)
                       (scanRowIntoSlice rows row)).
  { intros rows row. unfold scanRowIntoSlice.
    apply calls_only_called; [exact I|].
    destruct (columns rows) as [colNames|e]; [|apply calls_only_panic].
    apply calls_only_called; [exact I|].
    destruct (Scan row (length colNames));
      [apply calls_only_ret|apply calls_only_log_Fatal]. }
  assert (Hloop : ∀ (rows : Rows any) todo ids texts,
            calls_only (pipeline_call flags dbPath)
                       (rows_loop Sprintf_v rows todo ids texts)).
  { intros rows todo. induction todo as [|row todo IH]; intros ids texts;
      cbn [rows_loop].
    - apply calls_only_called; [exact I|apply calls_only_ret].
    - apply calls_only_called; [exact I|].
      apply calls_only_bind; [apply Hscan|]. intros values.
      case_decide; [apply calls_only_log_Fatal|].
      destruct values; [apply calls_only_panic|apply IH]. }
  unfold embedModeDB. apply calls_only_called; [split; reflexivity|].
  destruct (Open "sqlite3" dbPath) as [db|e]; [|apply calls_only_log_Fatal].
  destruct (Exec db (create_table_stmt (table flags))) as [db1 err].
  apply calls_only_called; [left; reflexivity|].
  destruct err; [apply calls_only_log_Fatal|].
  apply calls_only_bind.
  - case_decide; [|apply calls_only_panic]. apply calls_only_bind.
    + unfold attach_database. case_decide; [|apply calls_only_ret].
      case_decide; [apply calls_only_log_Fatal|].
      destruct (attach flags) as [|alias [|path rest]] eqn:Hattach;
        try apply calls_only_panic.
      destruct (Exec db1 (attach_stmt path alias)) as [db2 err].
      apply calls_only_called.
      * right. exists alias, path, rest. split; [exact Hattach|reflexivity].
      * destruct err; [apply calls_only_log_Fatal|apply calls_only_ret].
    + intros db2. unfold query_rows.
      destruct (Query db2 (sql flags)) as [db3 queried].
      apply calls_only_called; [reflexivity|].
      destruct queried as [rows|e]; [|apply calls_only_log_Fatal].
      apply calls_only_bind; [apply Hloop|]. intros [ids texts].
      apply calls_only_called; [exact I|].
      destruct (iter_err rows);
        [apply calls_only_log_Fatal|apply calls_only_ret].
  - intros [[db2 ids] texts].
    apply calls_only_called; [exact I|].
    apply calls_only_called; [exact I|]. apply calls_only_ret.
Qed.

End PipelineClaims.

(** *** The pipeline on the example database *)

Section PipelineExamples.
Import Sql EmbedDB.

Lemma embedModeDB_ids_and_texts_witness :
  (∃ db' : MemDB.session,
     (run (embedModeDB MemDB.Sprintf_v MemDB.attach_notes [] "out.db")).1
     = Done (db', ["1"; "2"], ["hello world"; "lorem <nil>"])) ∧
  (run (embedModeDB MemDB.Sprintf_v MemDB.only_ids [] "out.db")).1
  = Fatal "expect at least 2 columns from query; got 1".
Proof.
  split.
  - exists {| MemDB.tables := {["embeddings" := ∅]};
              MemDB.attached := [("docs", "docs.db")] |}.
    refine (proj2 (embedModeDB_ids_and_texts MemDB.Sprintf_v
                     MemDB.attach_notes [] "out.db" _ _ MemDB.notes
                     ["id"; "title"; "body"] _ _ _)
              [(MemDB.Integer 1, [MemDB.Text "hello"; MemDB.Text "world"]);
               (MemDB.Integer 2, [MemDB.Text "lorem"; MemDB.Null])]
              _ _ _ _).
    + split; [discriminate|].
      exists {| MemDB.tables := ∅; MemDB.attached := [] |},
             {| MemDB.tables := {["embeddings" := ∅]};
                MemDB.attached := [] |}.
      split; [reflexivity|]. split; [vm_compute; reflexivity|].
      right. exists "docs", "docs.db". split; vm_compute; reflexivity.
    + vm_compute. reflexivity.
    + reflexivity.
    + reflexivity.
    + repeat constructor.
    + simpl. lia.
    + reflexivity.
  - refine (proj1 (embedModeDB_ids_and_texts MemDB.Sprintf_v
                     MemDB.only_ids [] "out.db" _ _ MemDB.note_ids ["id"]
                     _ _ _)
              [MemDB.Integer 1] [Ok [MemDB.Integer 2]] _ _ _).
    + split; [discriminate|].
      exists {| MemDB.tables := ∅; MemDB.attached := [] |},
             {| MemDB.tables := {["embeddings" := ∅]};
                MemDB.attached := [] |}.
      split; [reflexivity|]. split; [vm_compute; reflexivity|].
      left. split; reflexivity.
    + vm_compute. reflexivity.
    + reflexivity.
    + reflexivity.
    + reflexivity.
    + simpl. lia.
Defined.

Lemma embedModeDB_attach_witness :
  (∃ (out : outcome (MemDB.session * list string * list string))
     (tl : list event),
     run (embedModeDB MemDB.Sprintf_v MemDB.attach_notes [] "out.db")
     = (out,
        [Event (sql_Open "sqlite3" "out.db") None;
         Event (DB_Exec (create_table_stmt "embeddings")) None;
         Event (DB_Exec "ATTACH DATABASE 'docs.db' as docs") None;
         Event (DB_Query "SELECT id, title, body FROM docs.notes") None]
        ++ tl)) ∧
  run (embedModeDB MemDB.Sprintf_v MemDB.attach_alone [] "out.db")
  = (Fatal "expect <alias>,<db path> pair for --attach",
     [Event (sql_Open "sqlite3" "out.db") None;
      Event (DB_Exec (create_table_stmt "embeddings")) None]).
Proof.
  split.
  - refine (proj1 (embedModeDB_attach MemDB.Sprintf_v MemDB.attach_notes []
                     "out.db" {| MemDB.tables := ∅; MemDB.attached := [] |}
                     {| MemDB.tables := {["embeddings" := ∅]};
                        MemDB.attached := [] |} _ _ _)
              "docs" "docs.db"
              {| MemDB.tables := {["embeddings" := ∅]};
                 MemDB.attached := [("docs", "docs.db")] |} _ _).
    + discriminate.
    + reflexivity.
    + vm_compute. reflexivity.
    + reflexivity.
    + vm_compute. reflexivity.
  - refine (proj1 (proj2 (embedModeDB_attach MemDB.Sprintf_v
                            MemDB.attach_alone [] "out.db"
                            {| MemDB.tables := ∅; MemDB.attached := [] |}
                            {| MemDB.tables := {["embeddings" := ∅]};
                               MemDB.attached := [] |} _ _ _)) _ _).
    + discriminate.
    + reflexivity.
    + vm_compute. reflexivity.
    + discriminate.
    + simpl. lia.
Defined.

Lemma embedModeDB_stops_at_error_witness :
  (run (embedModeDB MemDB.Sprintf_v MemDB.bad_query [] "out.db")).2 !! 2
  = Some (Event (DB_Query "SELECT nothing") (Some "SQL logic error")) ∧
  aborted (run (embedModeDB MemDB.Sprintf_v MemDB.bad_query [] "out.db")).1 ∧
  length (run (embedModeDB MemDB.Sprintf_v MemDB.bad_query [] "out.db")).2 = 3.
Proof.
  assert (H : (run (embedModeDB MemDB.Sprintf_v MemDB.bad_query [] "out.db")).2
              !! 2
              = Some (Event (DB_Query "SELECT nothing")
                            (Some "SQL logic error")))
    by (vm_compute; reflexivity).
  split; [exact H|].
  exact (embedModeDB_stops_at_error MemDB.Sprintf_v MemDB.bad_query []
           "out.db" 2 (DB_Query "SELECT nothing") "SQL logic error" H).
Defined.

Lemma embedModeDB_only_sql_witness :
  run (embedModeDB MemDB.Sprintf_v MemDB.no_sql [] "out.db")
  = (Panic "only sql for now",
     [Event (sql_Open "sqlite3" "out.db") None;
      Event (DB_Exec (create_table_stmt "embeddings")) None]).
Proof.
  refine (proj2 (proj2 (embedModeDB_only_sql MemDB.Sprintf_v MemDB.no_sql []
                          "out.db" _))
            {| MemDB.tables := ∅; MemDB.attached := [] |}
            {| MemDB.tables := {["embeddings" := ∅]};
               MemDB.attached := [] |} _ _).
  - reflexivity.
  - reflexivity.
  - vm_compute. reflexivity.
Defined.

(** C4, as the specification states it, fails: an invocation with a database
    path and no SQL query does not go on to read ids and texts from the file
    system; it panics after the table has been created. *)
Lemma embedModeDB_no_sql_counterexample :
  sql MemDB.no_sql = "" ∧
  run (embedModeDB MemDB.Sprintf_v MemDB.no_sql [] "out.db")
  = (Panic "only sql for now",
     [Event (sql_Open "sqlite3" "out.db") None;
      Event (DB_Exec (create_table_stmt "embeddings")) None]) ∧
  ¬ ∃ r : MemDB.session * list string * list string,
      (run (embedModeDB MemDB.Sprintf_v MemDB.no_sql [] "out.db")).1 = Done r.
Proof.
  split; [reflexivity|]. split; [vm_compute; reflexivity|].
  intros [r Hr]. vm_compute in Hr. discriminate Hr.
Qed.

(** C3.  On the example database the run extracts the pairs
    ("1", "hello world") and ("2", "lorem <nil>"), and ends without having
    computed an embedding or written a row: the statements it executed are
    the CREATE TABLE and the ATTACH, and the table [embeddings] is empty when
    it returns. *)
Theorem embedModeDB_stores_nothing :
  match run (embedModeDB MemDB.Sprintf_v MemDB.attach_notes [] "out.db") with
  | (Done (db, ids, texts), history) =>
      ids = ["1"; "2"] ∧
      texts = ["hello world"; "lorem <nil>"] ∧
      MemDB.tables db !! "embeddings" = Some ∅ ∧
      omap (λ ev, match ev_call ev with
                  | DB_Exec stmt => Some stmt
                  | _ => None
                  end) history
      = [create_table_stmt "embeddings"; "ATTACH DATABASE 'docs.db' as docs"]
  | _ => False
  end.
Proof. vm_compute. repeat split. Qed.

End PipelineExamples.

(** ** The prompt command *)

Section PromptFacts.
Import Genai Prompt.

Lemma first_argument_part (args : list string) (promptParts : list Part) :
  (if decide (1 <= length args) then
     match args with
     | arg0 :: _ => promptParts ++ [Text arg0]
     | [] => promptParts
     end
   else promptParts)
  = promptParts ++ match args with
                   | arg0 :: _ => [Text arg0]
                   | [] => []
                   end.
Proof.
  destruct args as [|arg0 args]; simpl.
  - rewrite app_nil_r. reflexivity.
  - reflexivity.
Qed.

Lemma runPromptCmd_unfold (env : Env) (args : list string) (key : string)
    (stdin : option string) :
  apikey_Get env = Done key →
  match stdin with
  | None => stdin_IsTerminal env = true
  | Some b => stdin_IsTerminal env = false ∧ stdin_ReadAll env = Ok b
  end →
  runPromptCmd env args
  = if decide (prompt_parts (system env) stdin args = []) then
      Fatal "expect a prompt from stdin and/or command-line argument"
    else
      match NewClient env key with
      | Some e => Fatal e
      | None =>
          Done {| req_model := model env; req_stream := stream env;
                  req_parts := prompt_parts (system env) stdin args |}
      end.
Proof.
  intros Hkey Hstdin. unfold runPromptCmd, prompt_parts. rewrite Hkey.
  unfold mbind, outcome_bind. cbv zeta.
  destruct stdin as [b|];
    [destruct Hstdin as [Hterm Hread]; rewrite Hterm, Hread|rewrite Hstdin];
    cbn [negb]; rewrite first_argument_part;
    (destruct (decide (system env = "")) as [Hs|Hs];
     [rewrite (decide_False (P := system env ≠ "")) by tauto
     |rewrite (decide_True (P := system env ≠ "")) by exact Hs]);
    destruct args as [|arg0 args]; cbn [app];
    try rewrite (decide_True (P := 0 = 0)) by reflexivity;
    try rewrite (decide_False (P := S _ = 0)) by discriminate;
    reflexivity.
Qed.

(** C10.  The prompt command builds its prompt parts in a fixed order: the
    [--system] value if it is not empty, then all of standard input if
    standard input is no terminal, then the first positional argument if
    there is one.  With no part at all it aborts with an error; otherwise
    these are the parts it sends.  Positional arguments after the first do
    not matter. *)
Theorem runPromptCmd_parts (env : Env) (args : list string) :
  (∀ (key : string) (stdin : option string),
     apikey_Get env = Done key →
     match stdin with
     | None => stdin_IsTerminal env = true
     | Some b => stdin_IsTerminal env = false ∧ stdin_ReadAll env = Ok b
     end →
     (prompt_parts (system env) stdin args = [] →
      runPromptCmd env args
      = Fatal "expect a prompt from stdin and/or command-line argument") ∧
     (prompt_parts (system env) stdin args ≠ [] →
      NewClient env key = None →
      runPromptCmd env args
      = Done {| req_model := model env; req_stream := stream env;
                req_parts := prompt_parts (system env) stdin args |})) ∧
  runPromptCmd env args = runPromptCmd env (take 1 args).
Proof.
  split.
  - intros key stdin Hkey Hstdin. split.
    + intros Hnil.
      rewrite (runPromptCmd_unfold env args key stdin Hkey Hstdin).
      rewrite decide_True by exact Hnil. reflexivity.
    + intros Hne Hclient.
      rewrite (runPromptCmd_unfold env args key stdin Hkey Hstdin).
      rewrite decide_False by exact Hne. rewrite Hclient. reflexivity.
  - unfold runPromptCmd, mbind, outcome_bind.
    destruct (apikey_Get env) as [key|msg|msg]; try reflexivity.
    cbv zeta.
    destruct (negb (stdin_IsTerminal env));
      [destruct (stdin_ReadAll env) as [b|e]; [|reflexivity]|];
      rewrite !first_argument_part; destruct args; reflexivity.
Qed.

Lemma runPromptCmd_parts_witness :
  runPromptCmd
    {| apikey_Get := Done "secret"; system := "be brief"; model := "gemini-pro";
       stream := true; stdin_IsTerminal := false;
       stdin_ReadAll := Ok "some text"; NewClient := λ _, None |}
    ["summarize"; "ignored"]
  = Done {| req_model := "gemini-pro"; req_stream := true;
            req_parts := [Text "be brief"; Text "some text";
                          Text "summarize"] |} ∧
  runPromptCmd Template.ex_env []
  = Fatal "expect a prompt from stdin and/or command-line argument".
Proof.
  split.
  - refine (proj2 (proj1 (runPromptCmd_parts
                            {| apikey_Get := Done "secret";
                               system := "be brief"; model := "gemini-pro";
                               stream := true; stdin_IsTerminal := false;
                               stdin_ReadAll := Ok "some text";
                               NewClient := λ _, None |}
                            ["summarize"; "ignored"])
                     "secret" (Some "some text") _ _) _ _).
    + reflexivity.
    + split; reflexivity.
    + discriminate.
    + reflexivity.
  - refine (proj1 (proj1 (runPromptCmd_parts Template.ex_env [])
                     "secret" None _ _) _).
    + reflexivity.
    + reflexivity.
    + reflexivity.
Defined.

End PromptFacts.

(** ** The template command *)

Section TemplateFacts.
Import Genai Template.
Variable argLooksLikeURL : string → bool.
Variable getPartFromURL : string → result Part.
Variable argLooksLikeFilename : string → bool.
Variable getPartFromFile : string → result Part.
Variable newGenaiClient : option string.
Variable ParseFloat : string → result Z.
Variable UserHomeDir : result string.
Variable OpenFile : string → option string.
Variable WriteString : string → option string.
Variable templates : gmap string string.

Local Abbreviation is_image := (is_image argLooksLikeURL argLooksLikeFilename).
Local Abbreviation load_image := (load_image argLooksLikeURL getPartFromURL getPartFromFile).
Local Abbreviation args_loop :=
  (args_loop argLooksLikeURL getPartFromURL argLooksLikeFilename getPartFromFile).
Local Abbreviation runTemplateCmd :=
  (runTemplateCmd argLooksLikeURL getPartFromURL argLooksLikeFilename
     getPartFromFile newGenaiClient ParseFloat UserHomeDir OpenFile WriteString
     templates).

(** The loop over the arguments keeps the image parts and the texts apart,
    each in the order of the arguments. *)
Lemma args_loop_sorts (args : list string) (promptParts : list Part)
    (textPrompt : list string) :
  (∀ arg, arg ∈ args → is_image arg = true → ∃ part, load_image arg = Ok part) →
  ∃ images : list Part,
    Forall2 (λ arg part, load_image arg = Ok part)
            (List.filter is_image args) images ∧
    args_loop args promptParts textPrompt
    = Done (promptParts ++ images,
            textPrompt ++ List.filter (λ arg, negb (is_image arg)) args).
Proof.
  revert promptParts textPrompt.
  induction args as [|arg args IH]; intros promptParts textPrompt Hload.
  - exists []. split; [constructor|]. simpl. rewrite !app_nil_r. reflexivity.
  - assert (Hrest : ∀ a, a ∈ args → is_image a = true →
                         ∃ part, load_image a = Ok part).
    { intros a Ha. apply Hload. right. exact Ha. }
    specialize (Hload arg ltac:(left)).
    unfold Template.is_image, Template.load_image in Hload |- *.
    cbn [Template.args_loop List.filter].
    destruct (argLooksLikeURL arg) eqn:HURL; cbn [orb negb] in *.
    + destruct (Hload eq_refl) as [part Hpart]. rewrite Hpart.
      destruct (IH (promptParts ++ [part]) textPrompt Hrest)
        as (images & Himages & Hrun).
      exists (part :: images). split.
      * constructor; [rewrite HURL; exact Hpart|exact Himages].
      * rewrite Hrun, <- app_assoc. reflexivity.
    + destruct (argLooksLikeFilename arg) eqn:HFile; cbn [negb] in *.
      * destruct (Hload eq_refl) as [part Hpart]. rewrite Hpart.
        destruct (IH (promptParts ++ [part]) textPrompt Hrest)
          as (images & Himages & Hrun).
        exists (part :: images). split.
        -- constructor; [rewrite HURL; exact Hpart|exact Himages].
        -- rewrite Hrun, <- app_assoc. reflexivity.
      * destruct (IH promptParts (textPrompt ++ [arg]) Hrest)
          as (images & Himages & Hrun).
        exists images. split; [exact Himages|].
        rewrite Hrun, <- app_assoc. reflexivity.
Qed.

(** The loop that fills the placeholders uses the first [placeholdersCnt]
    texts and no more. *)
Lemma fill_loop_foldl (texts : list string) (template : string) (n : nat) :
  fill_loop texts template n
  = foldl (λ text arg, Strings.Replace text "%s" arg 1) template
          (take n texts).
Proof.
  revert template n. induction texts as [|arg texts IH]; intros template n.
  - destruct n; reflexivity.
  - destruct n as [|n]; [reflexivity|].
    cbn [fill_loop take foldl]. rewrite decide_True by lia.
    replace (S n - 1) with n by lia. apply IH.
Qed.

(** C7 (as the code has it).  When the template command runs with a
    template ([--use] given, [--list] not given, and not [--add] with
    exactly one argument), and every image loads, the client is created and
    a [--temp] value parses: every argument that looks like a URL or like a
    file name is sent as the image part loaded from it, in argument order;
    the other arguments are not sent as parts: of them, as many as the
    template has placeholders replace, each in turn, the first [%s] left in
    the text, the further ones are dropped, and the resulting text is the
    one text part, sent last. *)
Theorem runTemplateCmd_parts (flags : Flags) (env : Prompt.Env)
    (args : list string) :
  flag_list flags = false →
  ¬ (flag_add flags ≠ "" ∧ length args = 1) →
  flag_use flags ≠ "" →
  (∀ arg, arg ∈ args → is_image arg = true → ∃ part, load_image arg = Ok part) →
  newGenaiClient = None →
  (flag_temp flags = "" ∨ ∃ f, ParseFloat (flag_temp flags) = Ok f) →
  ∃ (images : list Part) (temperature : option Z),
    Forall2 (λ arg part, load_image arg = Ok part)
            (List.filter is_image args) images ∧
    runTemplateCmd flags env args
    = Done (Sent
              {| req_model := Prompt.model env;
                 req_stream := Prompt.stream env;
                 req_parts :=
                   images ++
                   [Text (substituted
                            (List.filter (λ arg, negb (is_image arg)) args)
                            (default "" (templates !! flag_use flags)))] |}
              temperature).
Proof.
  intros Hlist Hadd Huse Hload Hclient Htemp.
  destruct (args_loop_sorts args [] [] Hload) as (images & Himages & Hrun).
  unfold Template.runTemplateCmd, substituted. rewrite Hlist.
  rewrite decide_False by exact Hadd. rewrite decide_False by exact Huse.
  unfold mbind, outcome_bind. rewrite Hrun, Hclient. cbn [app].
  rewrite fill_loop_foldl.
  destruct Htemp as [Hnone|[f Hf]].
  - exists images, None. split; [exact Himages|].
    rewrite decide_False by (rewrite Hnone; tauto). reflexivity.
  - destruct (decide (flag_temp flags ≠ "")) as [Hne|He].
    + exists images, (Some f). split; [exact Himages|].
      rewrite Hf. reflexivity.
    + exists images, None. split; [exact Himages|]. reflexivity.
Qed.

End TemplateFacts.

Section TemplateExamples.
Import Genai Template.

Lemma runTemplateCmd_parts_witness :
  (∃ (images : list Part) (temperature : option Z),
     Forall2 (λ arg part,
                load_image ex_argLooksLikeURL ex_getPartFromURL
                           ex_getPartFromFile arg = Ok part)
             ["cat.png"; "https://example.com/dog.jpg"] images ∧
     ex_run ["cat.png"; "bonjour"; "https://example.com/dog.jpg"; "extra"]
     = Done (Sent {| req_model := "gemini-pro"; req_stream := true;
                     req_parts :=
                       images ++ [Text "translate bonjour to english"] |}
                  temperature)) ∧
  (∃ (images : list Part) (temperature : option Z),
     Forall2 (λ arg part,
                load_image ex_argLooksLikeURL ex_getPartFromURL
                           ex_getPartFromFile arg = Ok part)
             [] images ∧
     ex_run ["%s"; "bonjour"]
     = Done (Sent {| req_model := "gemini-pro"; req_stream := true;
                     req_parts := images ++ [Text "translate %s to english"] |}
                  temperature)).
Proof.
  split.
  - refine (runTemplateCmd_parts ex_argLooksLikeURL ex_getPartFromURL
              ex_argLooksLikeFilename ex_getPartFromFile None
              (λ _, Err "invalid syntax") (Ok "/home/user") (λ _, None)
              (λ _, None) ex_templates ex_flags ex_env
              ["cat.png"; "bonjour"; "https://example.com/dog.jpg"; "extra"]
              _ _ _ _ _ _).
    + reflexivity.
    + intros [Hadd _]. apply Hadd. reflexivity.
    + discriminate.
    + intros arg Harg Himage.
      apply list_elem_of_In in Harg. simpl in Harg.
      destruct Harg as [<-|[<-|[<-|[<-|[]]]]];
        try discriminate Himage; eexists; reflexivity.
    + reflexivity.
    + left. reflexivity.
  - refine (runTemplateCmd_parts ex_argLooksLikeURL ex_getPartFromURL
              ex_argLooksLikeFilename ex_getPartFromFile None
              (λ _, Err "invalid syntax") (Ok "/home/user") (λ _, None)
              (λ _, None) ex_templates ex_flags ex_env ["%s"; "bonjour"]
              _ _ _ _ _ _).
    + reflexivity.
    + intros [Hadd _]. apply Hadd. reflexivity.
    + discriminate.
    + intros arg Harg Himage.
      apply list_elem_of_In in Harg. simpl in Harg.
      destruct Harg as [<-|[<-|[]]]; discriminate Himage.
    + reflexivity.
    + left. reflexivity.
Defined.

(** C7, as the specification states it, fails on the template command: of
    the two text arguments below the first is sent inside the filled
    template only, and the second is not sent at all. *)
Lemma runTemplateCmd_argument_counterexample :
  ex_run ["bonjour"; "extra"]
  = Done (Sent {| req_model := "gemini-pro"; req_stream := true;
                  req_parts := [Text "translate bonjour to english"] |}
               None) ∧
  ¬ every_argument_sent ex_argLooksLikeURL ex_getPartFromURL
      ex_argLooksLikeFilename ex_getPartFromFile ["bonjour"; "extra"]
      {| req_model := "gemini-pro"; req_stream := true;
         req_parts := [Text "translate bonjour to english"] |}.
Proof.
  split; [vm_compute; reflexivity|].
  intros Hall.
  destruct (Hall "extra") as (part & Hpart & Hin).
  - right. left.
  - vm_compute in Hpart. injection Hpart as <-.
    apply list_elem_of_In in Hin. simpl in Hin.
    destruct Hin as [Heq|[]]. discriminate Heq.
Qed.

End TemplateExamples.

(** * Part III: further properties of the code *)

(** ** The blob encoding *)

Section EmbeddingMore.
Import Binary Embedding.
Local Open Scope Z_scope.

Lemma byte_bit_outside (b n : Z) :
  is_byte b -> n < 0 \/ 8 <= n -> Z.testbit b n = false.
Proof.
  intros Hb [Hn|Hn]; [apply Z.testbit_neg_r; exact Hn|].
  apply byte_high_bits; assumption.
Qed.

Lemma Uint32_testbit (b0 b1 b2 b3 n : Z) :
  0 <= n ->
  Z.testbit (Uint32 b0 b1 b2 b3) n
  = Z.testbit b0 n || Z.testbit b1 (n - 8) || Z.testbit b2 (n - 16)
    || Z.testbit b3 (n - 24).
Proof.
  intros Hn. unfold Uint32.
  rewrite !Z.lor_spec, !Z.shiftl_spec by exact Hn. reflexivity.
Qed.

(** Writing the word of four bytes gives the four bytes back. *)
Lemma PutUint32_Uint32 (b0 b1 b2 b3 : Z) :
  is_byte b0 -> is_byte b1 -> is_byte b2 -> is_byte b3 ->
  PutUint32 (Uint32 b0 b1 b2 b3) = [b0; b1; b2; b3].
Proof.
  intros H0 H1 H2 H3. unfold PutUint32.
  repeat f_equal; apply Z.bits_inj'; intros n Hn;
    rewrite byte_testbit by exact Hn;
    rewrite ?Z.shiftr_spec by exact Hn;
    rewrite Uint32_testbit by lia;
    destruct (Z.ltb_spec n 8);
    rewrite ?andb_true_r, ?andb_false_r;
    repeat match goal with
           | |- context [Z.testbit ?b ?i] =>
               rewrite (byte_bit_outside b i) by (assumption || lia)
           end;
    rewrite ?orb_false_r, ?orb_false_l;
    try reflexivity; f_equal; lia.
Qed.

Lemma blob_words (n : nat) (b : list Z) :
  Forall is_byte b -> (4 * n <= length b)%nat ->
  flat_map (fun f => PutUint32 (Float32bits f)) (words n b)
  = take (4 * n) b.
Proof.
  revert b. induction n as [|n IH]; intros b Hb Hlen; [reflexivity|].
  destruct b as [|b0 [|b1 [|b2 [|b3 b']]]]; simpl in Hlen; try lia.
  inversion Hb as [|? ? H0 Hb1]; subst.
  inversion Hb1 as [|? ? H1 Hb2]; subst.
  inversion Hb2 as [|? ? H2 Hb3]; subst.
  inversion Hb3 as [|? ? H3 Hb4]; subst.
  replace (4 * S n)%nat with (S (S (S (S (4 * n))))) by lia.
  cbn [words flat_map take]. unfold Float32bits, Float32frombits.
  rewrite PutUint32_Uint32 by assumption.
  rewrite IH by (assumption || lia). reflexivity.
Qed.

Lemma words_app (n1 n2 : nat) (b1 b2 : list Z) :
  length b1 = (4 * n1)%nat ->
  words (n1 + n2) (b1 ++ b2) = words n1 b1 ++ words n2 b2.
Proof.
  revert b1. induction n1 as [|n1 IH]; intros b1 Hlen.
  - destruct b1; [reflexivity|discriminate Hlen].
  - destruct b1 as [|b0 [|b1' [|b2' [|b3' b']]]]; simpl in Hlen; try lia.
    cbn [Nat.add words app]. rewrite IH by lia. reflexivity.
Qed.

(** X1.  Re-encoding what was decoded gives the bytes back, without the up to
    three bytes after the last whole word. *)
Theorem encodeEmbedding_decodeEmbedding (b : list Z) :
  Forall is_byte b ->
  exists fs : list float32,
    decodeEmbedding b = Done fs /\
    encodeEmbedding fs = Done (take (4 * (length b / 4)) b).
Proof.
  intros Hb. exists (words (length b / 4) b). split.
  - unfold decodeEmbedding, NewReader, Reader_Len.
    rewrite decode_loop_words by apply Nat.Div0.mul_div_le. reflexivity.
  - unfold encodeEmbedding. rewrite encode_loop_app. cbn [app].
    rewrite blob_words by (exact Hb || apply Nat.Div0.mul_div_le).
    reflexivity.
Qed.

Lemma encodeEmbedding_decodeEmbedding_witness :
  exists fs : list float32,
    decodeEmbedding [0xdb; 0x0f; 0x49; 0x40; 0; 0; 0x80; 0x3f; 7] = Done fs /\
    encodeEmbedding fs = Done [0xdb; 0x0f; 0x49; 0x40; 0; 0; 0x80; 0x3f].
Proof.
  apply (encodeEmbedding_decodeEmbedding
           [0xdb; 0x0f; 0x49; 0x40; 0; 0; 0x80; 0x3f; 7]).
  repeat constructor; unfold is_byte; lia.
Defined.

(** X2.  The blob of two slices one after the other is the two blobs one after
    the other. *)
Theorem encodeEmbedding_app (v w : list float32) :
  exists bv bw : list Z,
    encodeEmbedding v = Done bv /\
    encodeEmbedding w = Done bw /\
    encodeEmbedding (v ++ w) = Done (bv ++ bw).
Proof.
  unfold encodeEmbedding. rewrite !encode_loop_app. cbn [app].
  eexists _, _. split; [reflexivity|]. split; [reflexivity|].
  rewrite flat_map_app. reflexivity.
Qed.

(** X3.  Two blobs one after the other decode to the two slices one after the
    other, when the first blob is made of whole words. *)
Theorem decodeEmbedding_app (b1 b2 : list Z) (n1 : nat) :
  length b1 = (4 * n1)%nat ->
  exists f1 f2 : list float32,
    decodeEmbedding b1 = Done f1 /\
    decodeEmbedding b2 = Done f2 /\
    decodeEmbedding (b1 ++ b2) = Done (f1 ++ f2).
Proof.
  intros Hlen. exists (words n1 b1), (words (length b2 / 4) b2).
  unfold decodeEmbedding, NewReader, Reader_Len.
  rewrite length_app, Hlen.
  replace (4 * n1 / 4)%nat with n1
    by (rewrite Nat.mul_comm, Nat.div_mul; lia).
  replace ((4 * n1 + length b2) / 4)%nat with (n1 + length b2 / 4)%nat
    by (rewrite (Nat.mul_comm 4 n1), Nat.div_add_l; lia).
  pose proof (Nat.Div0.mul_div_le (length b2) 4) as Hle.
  rewrite !decode_loop_words by (rewrite ?length_app; lia).
  cbn [app]. rewrite words_app by exact Hlen. auto.
Qed.

Lemma decodeEmbedding_app_witness :
  exists f1 f2 : list float32,
    decodeEmbedding [0; 0; 0x80; 0x3f] = Done f1 /\
    decodeEmbedding [0xdb; 0x0f; 0x49; 0x40; 9] = Done f2 /\
    decodeEmbedding ([0; 0; 0x80; 0x3f] ++ [0xdb; 0x0f; 0x49; 0x40; 9])
    = Done (f1 ++ f2).
Proof.
  apply (decodeEmbedding_app [0; 0; 0x80; 0x3f] [0xdb; 0x0f; 0x49; 0x40; 9] 1).
  reflexivity.
Defined.

(** X4.  Different slices have different blobs. *)
Theorem encodeEmbedding_inj (v w : list float32) :
  Forall is_float32 v -> Forall is_float32 w ->
  v <> w -> encodeEmbedding v <> encodeEmbedding w.
Proof.
  intros Hv Hw Hne. unfold encodeEmbedding. rewrite !encode_loop_app.
  cbn [app]. intros [= Heq]. apply Hne.
  assert (Hlen : length v = length w).
  { apply (f_equal (@length Z)) in Heq. rewrite !blob_length in Heq. lia. }
  rewrite <- (words_blob v [] Hv), <- (words_blob w [] Hw).
  rewrite Hlen, Heq. reflexivity.
Qed.

Lemma encodeEmbedding_inj_witness :
  encodeEmbedding [0x3f800000; 0] <> encodeEmbedding [0x3f800000; 0x80000000].
Proof.
  apply (encodeEmbedding_inj [0x3f800000; 0] [0x3f800000; 0x80000000]).
  - repeat constructor; unfold is_float32, is_uint32; lia.
  - repeat constructor; unfold is_float32, is_uint32; lia.
  - discriminate.
Defined.

End EmbeddingMore.

(** ** The embed --db pipeline *)

Section PipelineMore.
Import Sql EmbedDB History.
Context {any DB : Type} `{!Driver any DB}.
Variable Sprintf_v : any → string.

Lemma printed_app (t1 t2 : list event) :
  printed (t1 ++ t2) = printed t1 ++ printed t2.
Proof. apply omap_app. Qed.

Lemma adds_bind {A B : Type} (m : M A) (k : A → M B)
    (P : outcome A → list event → Prop)
    (Q : A → outcome B → list event → Prop)
    (R : outcome B → list event → Prop) :
  adds m P →
  (∀ a, adds (k a) (Q a)) →
  (∀ a tl1 o tl2, P (Done a) tl1 → Q a o tl2 → R o (tl1 ++ tl2)) →
  (∀ msg tl, P (Fatal msg) tl → R (Fatal msg) tl) →
  (∀ msg tl, P (Panic msg) tl → R (Panic msg) tl) →
  adds (m ≫= k) R.
Proof.
  intros Hm Hk HDone HFatal HPanic t.
  destruct (Hm t) as (o & tl & Hrun & HP).
  rewrite (run_bind m k t (t ++ tl) o Hrun).
  destruct o as [a|msg|msg].
  - destruct (Hk a (t ++ tl)) as (o' & tl' & Hrun' & HQ).
    exists o', (tl ++ tl'). rewrite Hrun', app_assoc. split; [reflexivity|].
    apply (HDone a); assumption.
  - exists (Fatal msg), tl. split; [reflexivity|]. apply HFatal, HP.
  - exists (Panic msg), tl. split; [reflexivity|]. apply HPanic, HP.
Qed.

Lemma adds_called {A : Type} (c : call) (err : option string) (k : M A)
    (Q R : outcome A → list event → Prop) :
  adds k Q →
  (∀ o tl, Q o tl → R o (Event c err :: tl)) →
  adds (called c err;; k) R.
Proof.
  intros Hk HR t. rewrite run_called.
  destruct (Hk (t ++ [Event c err])) as (o & tl & Hrun & HQ).
  exists o, (Event c err :: tl). rewrite Hrun, <- app_assoc.
  split; [reflexivity|]. apply HR, HQ.
Qed.

Lemma adds_ret {A : Type} (a : A) (P : outcome A → list event → Prop) :
  P (Done a) [] → adds (mret a : M A) P.
Proof. intros HP t. exists (Done a), []. rewrite app_nil_r. auto. Qed.

Lemma adds_log_Fatal {A : Type} (msg : string)
    (P : outcome A → list event → Prop) :
  P (Fatal msg) [] → adds (@log_Fatal A msg) P.
Proof. intros HP t. exists (Fatal msg), []. rewrite app_nil_r. auto. Qed.

Lemma adds_panic {A : Type} (msg : string)
    (P : outcome A → list event → Prop) :
  P (Panic msg) [] → adds (@panic A msg) P.
Proof. intros HP t. exists (Panic msg), []. rewrite app_nil_r. auto. Qed.

Lemma scanRowIntoSlice_silent (rows : Rows any) (row : result (list any)) :
  adds (scanRowIntoSlice rows row) (λ _ tl, printed tl = []).
Proof.
  unfold scanRowIntoSlice.
  apply (adds_called _ _ _ (λ _ tl, printed tl = [])); [|auto].
  destruct (columns rows) as [colNames|e]; [|apply adds_panic; reflexivity].
  apply (adds_called _ _ _ (λ _ tl, printed tl = [])); [|auto].
  destruct (Scan row (length colNames));
    [apply adds_ret|apply adds_log_Fatal]; reflexivity.
Qed.

Lemma rows_loop_post (rows : Rows any) (todo : list (result (list any)))
    (ids texts : list string) :
  adds (rows_loop Sprintf_v rows todo ids texts) (loop_post todo ids texts).
Proof.
  revert ids texts. induction todo as [|row todo IH]; intros ids texts;
    cbn [rows_loop].
  - apply (adds_called _ _ _ (loop_post (any:=any) [] ids texts)).
    + apply adds_ret. split; [reflexivity|].
      intros ? ? [= <- <-]. simpl. lia.
    + intros o tl [Hsilent Hlen]. split; [exact Hsilent|exact Hlen].
  - apply (adds_called _ _ _ (loop_post (row :: todo) ids texts));
      [|intros o tl [Hsilent Hlen]; split; [exact Hsilent|exact Hlen]].
    eapply adds_bind.
    + apply scanRowIntoSlice_silent.
    + intros values.
      instantiate (1 := λ _, loop_post (row :: todo) ids texts).
      case_decide.
      { apply adds_log_Fatal. split; [reflexivity|]. discriminate. }
      destruct values as [|id rest].
      { apply adds_panic. split; [reflexivity|]. discriminate. }
      intros t. destruct (IH (ids ++ [Sprintf_v id])
                             (texts ++ [Fmt.strings_Join (Sprintf_v <$> rest) " "])
                             t) as (o & tl & Hrun & Hsilent & Hlen).
      exists o, tl. split; [exact Hrun|]. split; [exact Hsilent|].
      intros ids' texts' Ho. destruct (Hlen ids' texts' Ho) as [Hi Ht].
      rewrite length_app in Hi, Ht. simpl in *. lia.
    + intros values tl1 o tl2 Hsilent [Hsilent2 Hlen].
      split; [|exact Hlen]. rewrite printed_app, Hsilent, Hsilent2.
      reflexivity.
    + intros msg tl Hsilent. split; [exact Hsilent|discriminate].
    + intros msg tl Hsilent. split; [exact Hsilent|discriminate].
Qed.

Lemma adds_weaken {A : Type} (m : M A)
    (P Q : outcome A → list event → Prop) :
  adds m P → (∀ o tl, P o tl → Q o tl) → adds m Q.
Proof.
  intros Hm HPQ t. destruct (Hm t) as (o & tl & Hrun & HP).
  exists o, tl. split; [exact Hrun|]. apply HPQ, HP.
Qed.

Lemma query_rows_silent (db : DB) (sqlMode : string) :
  adds (query_rows Sprintf_v db sqlMode) (λ _ tl, printed tl = []).
Proof.
  unfold query_rows. destruct (Query db sqlMode) as [db' [rows|e]].
  - apply (adds_called _ _ _ (λ _ tl, printed tl = [])); [|auto].
    eapply adds_bind.
    + apply rows_loop_post.
    + intros [ids texts].
      instantiate (1 := λ _ _ tl, printed tl = []).
      apply (adds_called _ _ _ (λ _ tl, printed tl = [])); [|auto].
      destruct (iter_err rows);
        [apply adds_log_Fatal|apply adds_ret]; reflexivity.
    + intros a tl1 o tl2 [Hsilent _] Hsilent2.
      rewrite printed_app, Hsilent, Hsilent2. reflexivity.
    + intros msg tl [Hsilent _]. exact Hsilent.
    + intros msg tl [Hsilent _]. exact Hsilent.
  - apply (adds_called _ _ _ (λ _ tl, printed tl = [])); [|auto].
    apply adds_log_Fatal. reflexivity.
Qed.

Lemma attach_database_silent (db : DB) (attachPair : list string) :
  adds (attach_database db attachPair) (λ _ tl, printed tl = []).
Proof.
  unfold attach_database. case_decide; [|apply adds_ret; reflexivity].
  case_decide; [apply adds_log_Fatal; reflexivity|].
  destruct attachPair as [|alias [|path ?]];
    try (apply adds_panic; reflexivity).
  destruct (Exec db (attach_stmt path alias)) as [db' err].
  apply (adds_called _ _ _ (λ _ tl, printed tl = [])); [|auto].
  destruct err; [apply adds_log_Fatal|apply adds_ret]; reflexivity.
Qed.

(** X6.  What a run prints is all or nothing: a run that returns has printed the
    slice of the ids and then the slice of the texts, each on one line and
    nothing else; a run that aborts has printed nothing. *)
Theorem embedModeDB_prints (flags : Flags) (args : list string)
    (dbPath : string) :
  printed (run (embedModeDB Sprintf_v flags args dbPath)).2
  = match (run (embedModeDB Sprintf_v flags args dbPath)).1 with
    | Done (_, ids, texts) => [Fmt.Sprint_strings ids; Fmt.Sprint_strings texts]
    | Fatal _ | Panic _ => []
    end.
Proof.
  set (Post := λ (o : outcome (DB * list string * list string)) tl,
         printed tl
         = match o with
           | Done (_, ids, texts) =>
               [Fmt.Sprint_strings ids; Fmt.Sprint_strings texts]
           | Fatal _ | Panic _ => []
           end).
  assert (Hadds : adds (embedModeDB Sprintf_v flags args dbPath) Post).
  { unfold embedModeDB.
    destruct (Open "sqlite3" dbPath) as [db|e]; cbn [error_of].
    2: { apply (adds_called _ _ _ Post);
           [apply adds_log_Fatal; reflexivity|intros o tl Htl; exact Htl]. }
    apply (adds_called _ _ _ Post); [|intros o tl Htl; exact Htl].
    destruct (Exec db (create_table_stmt (table flags))) as [db1 [e|]].
    { apply (adds_called _ _ _ Post);
        [apply adds_log_Fatal; reflexivity|intros o tl Htl; exact Htl]. }
    apply (adds_called _ _ _ Post); [|intros o tl Htl; exact Htl].
    apply (adds_bind _ _ (λ _ tl, printed tl = [])
             (λ a o tl,
                o = Done a ∧
                printed tl
                = [Fmt.Sprint_strings a.1.2; Fmt.Sprint_strings a.2])).
    - case_decide; [|apply adds_panic; reflexivity].
      apply (adds_bind _ _ (λ _ tl, printed tl = [])
               (λ _ _ tl, printed tl = [])).
      + apply attach_database_silent.
      + intros db2. apply query_rows_silent.
      + intros a tl1 o tl2 H1 H2. rewrite printed_app, H1, H2. reflexivity.
      + auto.
      + auto.
    - intros [[db2 ids] texts] t. rewrite !run_called. eexists _, _.
      rewrite <- app_assoc. split; [reflexivity|]. split; reflexivity.
    - intros [[db2 ids] texts] tl1 o tl2 H1 [-> H2]. unfold Post.
      rewrite printed_app, H1, H2. reflexivity.
    - intros msg tl Htl. exact Htl.
    - intros msg tl Htl. exact Htl. }
  destruct (Hadds []) as (o & tl & Hrun & Hprinted).
  unfold run. rewrite Hrun. exact Hprinted.
Qed.

(** X7.  Every row of the result gives one id and one text: when a run returns,
    its ids and its texts are as many as the rows of the query. *)
Theorem embedModeDB_one_pair_per_row (flags : Flags) (args : list string)
    (dbPath : string) (db db' d : DB) (rows : Rows any)
    (ids texts : list string) :
  reaches_query flags dbPath db →
  Query db (sql flags) = (db', Ok rows) →
  (run (embedModeDB Sprintf_v flags args dbPath)).1 = Done (d, ids, texts) →
  length ids = length (pending rows) ∧ length texts = length (pending rows).
Proof.
  intros Hreach HQuery.
  destruct (reaches_query_attach _ _ _ Hreach)
    as (db0 & db1 & t0 & Hsql & HOpen & HExec & Hattach).
  destruct (query_rows Sprintf_v db (sql flags) t0) as [o t1] eqn:Hrun.
  rewrite (embedModeDB_from_query Sprintf_v flags args dbPath db0 db1 db t0
             Hsql HOpen HExec Hattach _ _ Hrun).
  unfold query_rows in Hrun. rewrite HQuery in Hrun. cbn [error_of] in Hrun.
  rewrite run_called in Hrun.
  destruct (rows_loop_post rows (pending rows) [] []
              (t0 ++ [Event (DB_Query (sql flags)) None]))
    as (o' & tl & Hloop & _ & Hlen).
  rewrite (run_bind _ _ _ _ _ Hloop) in Hrun.
  destruct o' as [[ids' texts']|msg|msg].
  - destruct (Hlen ids' texts' eq_refl) as [Hi Ht]. simpl in Hi, Ht.
    rewrite run_called in Hrun.
    destruct (iter_err rows); injection Hrun as <- <-; [discriminate|].
    intros [= _ <- <-]. split; assumption.
  - injection Hrun as <- <-. discriminate.
  - injection Hrun as <- <-. discriminate.
Qed.

Lemma database_calls_app (t1 t2 : list event) :
  database_calls (t1 ++ t2) = database_calls t1 ++ database_calls t2.
Proof. apply omap_app. Qed.

Lemma database_calls_cons (ev : event) (tl : list event) :
  database_calls (ev :: tl) = database_calls [ev] ++ database_calls tl.
Proof. apply (database_calls_app [ev] tl). Qed.

Lemma scanRowIntoSlice_no_statement (rows : Rows any)
    (row : result (list any)) :
  adds (scanRowIntoSlice rows row) (λ _ tl, database_calls tl = []).
Proof.
  unfold scanRowIntoSlice.
  apply (adds_called _ _ _ (λ _ tl, database_calls tl = [])); [|auto].
  destruct (columns rows) as [colNames|e]; [|apply adds_panic; reflexivity].
  apply (adds_called _ _ _ (λ _ tl, database_calls tl = [])); [|auto].
  destruct (Scan row (length colNames));
    [apply adds_ret|apply adds_log_Fatal]; reflexivity.
Qed.

Lemma rows_loop_no_statement (rows : Rows any)
    (todo : list (result (list any))) (ids texts : list string) :
  adds (rows_loop Sprintf_v rows todo ids texts)
       (λ _ tl, database_calls tl = []).
Proof.
  revert ids texts. induction todo as [|row todo IH]; intros ids texts;
    cbn [rows_loop].
  - apply (adds_called _ _ _ (λ _ tl, database_calls tl = [])); [|auto].
    apply adds_ret. reflexivity.
  - apply (adds_called _ _ _ (λ _ tl, database_calls tl = [])); [|auto].
    apply (adds_bind _ _ (λ _ tl, database_calls tl = [])
             (λ _ _ tl, database_calls tl = [])).
    + apply scanRowIntoSlice_no_statement.
    + intros values. case_decide; [apply adds_log_Fatal; reflexivity|].
      destruct values as [|id rest]; [apply adds_panic; reflexivity|].
      apply IH.
    + intros a tl1 o tl2 H1 H2. rewrite database_calls_app, H1, H2.
      reflexivity.
    + auto.
    + auto.
Qed.

(** However the query ends, it is the one statement of its block. *)
Lemma query_rows_one_query (db : DB) (sqlMode : string) :
  adds (query_rows Sprintf_v db sqlMode)
       (λ _ tl, database_calls tl = [DB_Query sqlMode]).
Proof.
  unfold query_rows. destruct (Query db sqlMode) as [db' [rows|e]].
  - apply (adds_called _ _ _ (λ _ tl, database_calls tl = []));
      [|intros o tl Htl; rewrite database_calls_cons, Htl; reflexivity].
    apply (adds_bind _ _ (λ _ tl, database_calls tl = [])
             (λ _ _ tl, database_calls tl = [])).
    + apply rows_loop_no_statement.
    + intros [ids texts].
      apply (adds_called _ _ _ (λ _ tl, database_calls tl = [])); [|auto].
      destruct (iter_err rows);
        [apply adds_log_Fatal|apply adds_ret]; reflexivity.
    + intros a tl1 o tl2 H1 H2. rewrite database_calls_app, H1, H2.
      reflexivity.
    + auto.
    + auto.
  - apply (adds_called _ _ _ (λ _ tl, database_calls tl = []));
      [|intros o tl Htl; rewrite database_calls_cons, Htl; reflexivity].
    apply adds_log_Fatal. reflexivity.
Qed.

(** The attach block executes the ATTACH statement of a pair when it
    returns, and nothing else when it does not. *)
Lemma attach_database_statement (db : DB) (attachPair : list string) :
  adds (attach_database db attachPair)
       (λ o tl, match o with
                | Done _ => database_calls tl = attach_calls attachPair
                | Fatal _ | Panic _ =>
                    database_calls tl `prefix_of` attach_calls attachPair
                end).
Proof.
  unfold attach_database. case_decide as Hlen.
  2: { apply adds_ret. destruct attachPair; [reflexivity|simpl in Hlen; lia]. }
  case_decide as Hpair; [apply adds_log_Fatal; apply prefix_nil|].
  destruct attachPair as [|alias [|path [|? ?]]];
    try (apply adds_panic; apply prefix_nil);
    try (exfalso; simpl in Hpair; lia).
  destruct (Exec db (attach_stmt path alias)) as [db' err].
  intros t. rewrite run_called.
  destruct err as [e|]; eexists _, [_]; (split; [reflexivity|]);
    cbv beta iota; reflexivity.
Qed.

(** X5.  The calls of [sql.Open], [db.Exec] and [db.Query] that a run makes
    are, in this order: the database path opened with the driver sqlite3,
    the CREATE TABLE statement of the table, the ATTACH statement when
    [--attach] is a pair, and the query of [--sql].  A run that returns has
    made all of them, each once; a run that aborts has made the first ones
    of them, and at least opened the database. *)
Theorem embedModeDB_database_calls (flags : Flags) (args : list string)
    (dbPath : string) :
  match (run (embedModeDB Sprintf_v flags args dbPath)).1 with
  | Done _ =>
      database_calls (run (embedModeDB Sprintf_v flags args dbPath)).2
      = database_script flags dbPath
  | Fatal _ | Panic _ =>
      database_calls (run (embedModeDB Sprintf_v flags args dbPath)).2
        `prefix_of` database_script flags dbPath ∧
      database_calls (run (embedModeDB Sprintf_v flags args dbPath)).2 ≠ []
  end.
Proof.
  set (Post := λ (o : outcome (DB * list string * list string)) tl,
         match o with
         | Done _ => database_calls tl = database_script flags dbPath
         | Fatal _ | Panic _ =>
             database_calls tl `prefix_of` database_script flags dbPath ∧
             database_calls tl ≠ []
         end).
  assert (Hadds : adds (embedModeDB Sprintf_v flags args dbPath) Post).
  { unfold embedModeDB.
    destruct (Open "sqlite3" dbPath) as [db|e]; cbn [error_of].
    2: { intros t. rewrite run_called. eexists _, [_].
         split; [reflexivity|]. split; [|discriminate].
         eexists. reflexivity. }
    destruct (Exec db (create_table_stmt (table flags))) as [db1 [e|]].
    { intros t. rewrite !run_called. eexists _, [_; _].
      rewrite <- app_assoc. split; [reflexivity|]. split; [|discriminate].
      eexists. reflexivity. }
    set (Rest := λ (o : outcome (DB * list string * list string)) tl,
           match o with
           | Done _ =>
               database_calls tl
               = attach_calls (attach flags) ++ [DB_Query (sql flags)]
           | Fatal _ | Panic _ =>
               database_calls tl
                 `prefix_of` attach_calls (attach flags)
                             ++ [DB_Query (sql flags)]
           end).
    apply (adds_called _ _ _
             (λ o tl, match o with
                      | Done _ =>
                          database_calls tl
                          = DB_Exec (create_table_stmt (table flags))
                            :: attach_calls (attach flags)
                            ++ [DB_Query (sql flags)]
                      | Fatal _ | Panic _ =>
                          database_calls tl
                            `prefix_of`
                            DB_Exec (create_table_stmt (table flags))
                            :: attach_calls (attach flags)
                            ++ [DB_Query (sql flags)] ∧
                          database_calls tl ≠ []
                      end)).
    2: { intros o tl Htl. unfold Post, database_script.
         rewrite database_calls_cons.
         destruct o; [rewrite Htl; reflexivity| |];
           (split; [apply prefix_cons, Htl|discriminate]). }
    apply (adds_called _ _ _ Rest).
    2: { intros o tl Htl. unfold Rest in Htl.
         rewrite database_calls_cons.
         destruct o; [rewrite Htl; reflexivity| |];
           (split; [apply prefix_cons, Htl|discriminate]). }
    apply (adds_bind _ _ Rest (λ _ o tl, ∃ a, o = Done a ∧ database_calls tl = [])).
    - case_decide; [|apply adds_panic; apply prefix_nil].
      apply (adds_bind _ _
               (λ o tl, match o with
                        | Done _ =>
                            database_calls tl = attach_calls (attach flags)
                        | Fatal _ | Panic _ =>
                            database_calls tl
                              `prefix_of` attach_calls (attach flags)
                        end)
               (λ _ _ tl, database_calls tl = [DB_Query (sql flags)])).
      + apply attach_database_statement.
      + intros db2. apply query_rows_one_query.
      + intros a tl1 o tl2 H1 H2. unfold Rest.
        rewrite database_calls_app, H1, H2.
        destruct o; reflexivity.
      + intros msg tl Htl. apply prefix_app_r, Htl.
      + intros msg tl Htl. apply prefix_app_r, Htl.
    - intros [[db2 ids] texts] t. rewrite !run_called. eexists _, [_; _].
      rewrite <- app_assoc. split; [reflexivity|].
      eexists. split; reflexivity.
    - intros a tl1 o tl2 H1 (a' & -> & H2). unfold Rest in *.
      rewrite database_calls_app, H1, H2, app_nil_r. reflexivity.
    - auto.
    - auto. }
  destruct (Hadds []) as (o & tl & Hrun & Hpost).
  unfold run. rewrite Hrun. exact Hpost.
Qed.

End PipelineMore.

(** ** Strings *)

Section StringFacts.
Import TemplateFile.

Lemma append_nil_r (s : string) : s +:+ "" = s.
Proof.
  induction s as [|c s IH]; [reflexivity|].
  change (String c s +:+ "") with (String c (s +:+ "")). rewrite IH.
  reflexivity.
Qed.

Lemma append_assoc (s1 s2 s3 : string) :
  (s1 +:+ s2) +:+ s3 = s1 +:+ (s2 +:+ s3).
Proof.
  induction s1 as [|c s1 IH]; [reflexivity|].
  change ((String c s1 +:+ s2) +:+ s3) with (String c ((s1 +:+ s2) +:+ s3)).
  rewrite IH. reflexivity.
Qed.


(** A string that starts with another byte than [c] does not start with a
    separator that starts with [c]. *)
Lemma prefix_other (c c' : ascii) (sep s : string) :
  Ascii.eqb c' c = false → String.prefix (String c sep) (String c' s) = false.
Proof.
  intros Hne. cbn [String.prefix].
  destruct (ascii_dec c c') as [->|_]; [|reflexivity].
  rewrite Ascii.eqb_refl in Hne. discriminate Hne.
Qed.

Lemma prefix_same (c : ascii) (sep s : string) :
  String.prefix (String c sep) (String c s) = String.prefix sep s.
Proof.
  cbn [String.prefix]. destruct (ascii_dec c c) as [_|Hne]; [|congruence].
  reflexivity.
Qed.

Lemma prefix_empty (s : string) : String.prefix "" s = true.
Proof. destruct s; reflexivity. Qed.






Lemma Cut_free (s : string) :
  free_of ":" s = true → Cut s ":" = (s, "", false).
Proof.
  induction s as [|c s IH]; intros Hfree; [reflexivity|].
  cbn [free_of] in Hfree. apply andb_prop in Hfree as [Hc Hs].
  apply negb_true_iff in Hc.
  cbn [Cut]. rewrite (prefix_other ":" c "" _ Hc), (IH Hs). reflexivity.
Qed.

(** [Cut] splits at the colon that follows a text without colon. *)
Lemma Cut_first (key value : string) :
  free_of ":" key = true → Cut (key +:+ ":" +:+ value) ":" = (key, value, true).
Proof.
  induction key as [|c key IH]; intros Hfree.
  - change ("" +:+ ":" +:+ value) with (String ":" value).
    cbn [Cut]. rewrite prefix_same, prefix_empty. reflexivity.
  - cbn [free_of] in Hfree. apply andb_prop in Hfree as [Hc Hkey].
    apply negb_true_iff in Hc.
    change (String c key +:+ ":" +:+ value)
      with (String c (key +:+ ":" +:+ value)).
    cbn [Cut]. rewrite (prefix_other ":" c "" _ Hc), (IH Hkey). reflexivity.
Qed.

Lemma append_byte_inj (s1 s2 : string) (c : ascii) :
  s1 +:+ String c "" = s2 +:+ String c "" → s1 = s2.
Proof.
  revert s2. induction s1 as [|c1 s1 IH]; intros [|c2 s2] Heq;
    try reflexivity.
  - destruct s2; discriminate Heq.
  - destruct s1; discriminate Heq.
  - injection Heq as -> Heq. f_equal. apply IH, Heq.
Qed.

End StringFacts.

(** ** The template command *)

Section TemplateMore.
Import Genai Template TemplateFile.
Variable argLooksLikeURL : string → bool.
Variable getPartFromURL : string → result Part.
Variable argLooksLikeFilename : string → bool.
Variable getPartFromFile : string → result Part.
Variable newGenaiClient : option string.
Variable ParseFloat : string → result Z.
Variable UserHomeDir : result string.
Variable OpenFile : string → option string.
Variable WriteString : string → option string.
Variable templates : gmap string string.

Local Abbreviation is_image := (is_image argLooksLikeURL argLooksLikeFilename).
Local Abbreviation load_image :=
  (load_image argLooksLikeURL getPartFromURL getPartFromFile).
Local Abbreviation args_loop :=
  (args_loop argLooksLikeURL getPartFromURL argLooksLikeFilename getPartFromFile).
Local Abbreviation addTemplate := (addTemplate UserHomeDir OpenFile WriteString).
Local Abbreviation runTemplateCmd :=
  (runTemplateCmd argLooksLikeURL getPartFromURL argLooksLikeFilename
     getPartFromFile newGenaiClient ParseFloat UserHomeDir OpenFile WriteString
     templates).








(** X13.  A template is added exactly when [--list] is not given, [--add] names a
    key and there is exactly one argument, the value; the line written is
    [key:value]. *)
Theorem runTemplateCmd_added_iff (flags : Flags) (env : Prompt.Env)
    (args : list string) (line : string) :
  runTemplateCmd flags env args = Done (Added line) ↔
  flag_list flags = false ∧ flag_add flags ≠ "" ∧
  ∃ value : string,
    args = [value] ∧
    addTemplate (flag_add flags) value = Done line ∧
    line = flag_add flags +:+ ":" +:+ value +:+ Fmt.nl.
Proof.
  unfold Template.runTemplateCmd. split.
  - destruct (flag_list flags); [discriminate|].
    case_decide as Hadd.
    + destruct Hadd as [Hkey Hlen].
      destruct args as [|value [|? ?]]; try discriminate Hlen.
      unfold mbind, outcome_bind.
      destruct (Template.addTemplate UserHomeDir OpenFile WriteString
                  (flag_add flags) value) as [line'|msg|msg] eqn:Hline;
        try discriminate.
      intros [= <-]. split; [reflexivity|]. split; [exact Hkey|].
      exists value. split; [reflexivity|]. split; [exact Hline|].
      unfold Template.addTemplate in Hline.
      destruct UserHomeDir as [homeDir|]; [|discriminate].
      destruct (OpenFile _); [discriminate|].
      destruct (WriteString _); [discriminate|].
      injection Hline as <-. reflexivity.
    + case_decide.
      * unfold mbind, outcome_bind.
        destruct (Prompt.runPromptCmd _ args); discriminate.
      * unfold mbind, outcome_bind.
        destruct (Template.args_loop _ _ _ _ args [] []) as [[? ?]| |];
          try discriminate.
        destruct newGenaiClient; [discriminate|].
        case_decide; [|discriminate].
        destruct (ParseFloat _); discriminate.
  - intros (Hlist & Hkey & value & -> & Hline & _).
    rewrite Hlist. rewrite decide_True by (split; [exact Hkey|reflexivity]).
    unfold mbind, outcome_bind. rewrite Hline. reflexivity.
Qed.

End TemplateMore.

(** ** The templates file *)

Section TemplateFileFacts.
Import Template TemplateFile.
Variable TrimSpace : string → string.

Lemma scan_loop_app (l1 l2 : list string) (m : gmap string string) :
  scan_loop TrimSpace (l1 ++ l2) m
  = scan_loop TrimSpace l2 (scan_loop TrimSpace l1 m).
Proof.
  revert m. induction l1 as [|line l1 IH]; intros m; [reflexivity|].
  cbn [app scan_loop]. destruct (Cut line ":") as [[key value] [|]]; apply IH.
Qed.

Lemma scan_loop_other (lines : list string) (m : gmap string string)
    (k : string) :
  Forall (λ line, line_key TrimSpace line ≠ Some k) lines →
  scan_loop TrimSpace lines m !! k = m !! k.
Proof.
  intros Hlines. revert m.
  induction Hlines as [|line lines Hline _ IH]; intros m; [reflexivity|].
  cbn [scan_loop]. unfold line_key in Hline.
  destruct (Cut line ":") as [[key value] [|]]; [|apply IH].
  rewrite IH. apply lookup_insert_ne. congruence.
Qed.

(** X14.  Of the lines with the same key the last one counts: a line [key:value]
    that no later line overrides is read as the template [value] under
    [key], both trimmed, whatever comes before it. *)
Theorem scan_loop_last_wins (before after : list string)
    (line key value : string) (m : gmap string string) :
  Cut line ":" = (key, value, true) →
  Forall (λ l, line_key TrimSpace l ≠ Some (TrimSpace key)) after →
  scan_loop TrimSpace (before ++ line :: after) m !! TrimSpace key
  = Some (TrimSpace value).
Proof.
  intros HCut Hafter. rewrite scan_loop_app. cbn [scan_loop]. rewrite HCut.
  rewrite (scan_loop_other _ _ _ Hafter). apply lookup_insert_eq.
Qed.

(** X15.  A template that [addTemplate] has written is found by [init] when its
    line is the last of the file: under the trimmed key stands the trimmed
    value, provided the key has no colon. *)
Theorem init_reads_added (UserHomeDir : result string)
    (OpenFile_append WriteString OpenFile : string → option string)
    (ScanLines : string → list string) (key value line : string)
    (before : list string) :
  addTemplate UserHomeDir OpenFile_append WriteString key value = Done line →
  free_of ":" key = true →
  (∀ homeDir, UserHomeDir = Ok homeDir →
     OpenFile (homeDir +:+ templateFilePath) = None ∧
     ∃ l, line = l +:+ Fmt.nl ∧
          ScanLines (homeDir +:+ templateFilePath) = before ++ [l]) →
  ∃ templates : gmap string string,
    init TrimSpace UserHomeDir OpenFile ScanLines = Done templates ∧
    templates !! TrimSpace key = Some (TrimSpace value).
Proof.
  intros Hadd Hkey Hfile. unfold addTemplate in Hadd. unfold init.
  destruct UserHomeDir as [homeDir|e]; [|discriminate Hadd].
  destruct (Hfile homeDir eq_refl) as (HOpen & l & Hline & HScan).
  rewrite HOpen, HScan. eexists. split; [reflexivity|].
  destruct (OpenFile_append _); [discriminate Hadd|].
  destruct (WriteString _); [discriminate Hadd|].
  injection Hadd as Hadd. rewrite Hline in Hadd.
  assert (Hl : l = key +:+ ":" +:+ value).
  { apply (append_byte_inj _ _ (ascii_of_nat 10)).
    rewrite !append_assoc. symmetry. exact Hadd. }
  apply (scan_loop_last_wins before [] l key value ∅).
  - rewrite Hl. apply Cut_first, Hkey.
  - constructor.
Qed.

End TemplateFileFacts.

(** ** The prompt command, the root command and the reply *)

Section PromptMore.
Import Genai Prompt Root Reply.

(** X16.  With a key and a client, the command stops with "expect a prompt"
    exactly when there is no system prompt, standard input is a terminal and
    there is no argument; an empty standard input that is no terminal counts
    as a prompt. *)
Theorem runPromptCmd_no_prompt_iff (env : Env) (args : list string)
    (key : string) :
  apikey_Get env = Done key →
  NewClient env key = None →
  (stdin_IsTerminal env = false → ∃ b, stdin_ReadAll env = Ok b) →
  runPromptCmd env args
  = Fatal "expect a prompt from stdin and/or command-line argument" ↔
  system env = "" ∧ stdin_IsTerminal env = true ∧ args = [].
Proof.
  intros Hkey Hclient Hread.
  assert (Hstdin : ∃ stdin : option string,
            match stdin with
            | None => stdin_IsTerminal env = true
            | Some b => stdin_IsTerminal env = false ∧ stdin_ReadAll env = Ok b
            end ∧ (stdin = None ↔ stdin_IsTerminal env = true)).
  { destruct (stdin_IsTerminal env) eqn:Hterm.
    - exists None. split; [reflexivity|]. tauto.
    - destruct (Hread eq_refl) as [b Hb]. exists (Some b).
      split; [split; [reflexivity|exact Hb]|]. split; discriminate. }
  destruct Hstdin as (stdin & Hstdin & Hnone).
  rewrite (runPromptCmd_unfold env args key stdin Hkey Hstdin), Hclient.
  unfold prompt_parts. split.
  - case_decide as Hparts; [|discriminate]. intros _.
    destruct (decide (system env = "")) as [Hs|Hs]; [|discriminate Hparts].
    destruct stdin; [discriminate Hparts|].
    destruct args; [|discriminate Hparts].
    split; [exact Hs|]. split; [apply Hnone; reflexivity|reflexivity].
  - intros (Hs & Hterm & ->). apply Hnone in Hterm as ->.
    rewrite Hs. reflexivity.
Qed.

(** X17.  [getAPIKey] never returns an empty key: it returns [--key] when that is
    not empty and otherwise the environment variable, and it is fatal
    exactly when both are empty. *)
Theorem getAPIKey_key (flag_key env_API_KEY : string) :
  (∀ key, getAPIKey flag_key env_API_KEY = Done key →
          key ≠ "" ∧ key = if decide (flag_key = "") then env_API_KEY
                           else flag_key) ∧
  (aborted (getAPIKey flag_key env_API_KEY) ↔
   flag_key = "" ∧ env_API_KEY = "").
Proof.
  unfold getAPIKey.
  destruct flag_key as [|c f]; destruct env_API_KEY as [|c' e]; cbn.
  - split; [discriminate|]. split; [intros _; split; reflexivity|].
    intros _. exact I.
  - split; [|split; [intros []|intros [_ [=]]]].
    intros key [= <-]. split; [discriminate|reflexivity].
  - split; [|split; [intros []|intros [[=] _]]].
    intros key [= <-]. split; [discriminate|reflexivity].
  - split; [|split; [intros []|intros [[=] _]]].
    intros key [= <-]. split; [discriminate|reflexivity].
Qed.

(** The root command sends what the prompt command sends when that one
    takes its key from [getAPIKey] and streams. *)
Theorem runRootCmd_runPromptCmd (flag_key env_API_KEY : string) (env : Env)
    (args : list string) :
  runRootCmd flag_key env_API_KEY env args
  = runPromptCmd {| apikey_Get := getAPIKey flag_key env_API_KEY;
                    system := system env;
                    model := model env;
                    stream := true;
                    stdin_IsTerminal := stdin_IsTerminal env;
                    stdin_ReadAll := stdin_ReadAll env;
                    NewClient := NewClient env |} args.
Proof. reflexivity. Qed.

Section Printing.
Variable Sprint_part : Part → string.

Lemma Print_parts_concat (parts : list Part) (stdout : string) :
  Print_parts Sprint_part parts stdout
  = stdout +:+ concat_strings (Sprint_part <$> parts).
Proof.
  revert stdout. induction parts as [|part parts IH]; intros stdout.
  - cbn. rewrite append_nil_r. reflexivity.
  - cbn [Print_parts fmap list_fmap concat_strings]. rewrite IH.
    apply append_assoc.
Qed.

Lemma print_response_chunk (resp : Response) (stdout : string) :
  print_response Sprint_part false resp stdout
  = stdout +:+ chunk Sprint_part resp.
Proof.
  unfold print_response, chunk.
  destruct (Candidates resp) as [|[[parts|]] cs]; try reflexivity.
  rewrite decide_False by (simpl; lia). apply Print_parts_concat.
Qed.

Lemma stream_loop_chunks (rs : list Response) (iter : list (result Response))
    (stdout : string) :
  stream_loop Sprint_part ((Ok <$> rs) ++ iter) stdout
  = stream_loop Sprint_part iter
      (stdout +:+ concat_strings (chunk Sprint_part <$> rs)).
Proof.
  revert stdout. induction rs as [|r rs IH]; intros stdout.
  - cbn. rewrite append_nil_r. reflexivity.
  - cbn [fmap list_fmap app stream_loop concat_strings].
    fold (@fmap _ list_fmap). rewrite IH, print_response_chunk, append_assoc.
    reflexivity.
Qed.

(** X18.  While streaming, the text of every response is on standard output as
    soon as it arrives, the first candidate's only: a stream that ends
    leaves these chunks and a line end; a stream that fails leaves the chunks
    that came before the error, ends the command with the error, and what
    the iterator would have returned afterwards is not read. *)
Theorem respond_stream (rs : list Response) (after : list (result Response))
    (e : string) (GenerateContent : result Response) (stdout : string) :
  respond Sprint_part true (Ok <$> rs) GenerateContent stdout
  = (Done tt,
     stdout +:+ concat_strings (chunk Sprint_part <$> rs) +:+ Fmt.nl) ∧
  respond Sprint_part true ((Ok <$> rs) ++ Err e :: after) GenerateContent
          stdout
  = (Fatal e, stdout +:+ concat_strings (chunk Sprint_part <$> rs)).
Proof.
  unfold respond. split.
  - rewrite <- (app_nil_r (Ok <$> rs)), stream_loop_chunks.
    cbn [stream_loop]. rewrite append_assoc. reflexivity.
  - rewrite stream_loop_chunks. reflexivity.
Qed.

End Printing.

End PromptMore.

(** ** Rows, and the reply without streaming *)

Section RowsMore.
Import Sql EmbedDB History.
Context {any DB : Type} `{!Driver any DB}.
Variable Sprintf_v : any → string.

(** X9.  [scanRowIntoSlice] returns only when both [Columns] and [Scan] succeed,
    and then with one value for each column of the query. *)
Theorem scanRowIntoSlice_one_value_per_column (rows : Rows any)
    (row : result (list any)) (values : list any) (t t' : list event) :
  scanRowIntoSlice rows row t = (Done values, t') →
  ∃ names : list string,
    columns rows = Ok names ∧ row = Ok values ∧
    length values = length names.
Proof.
  unfold scanRowIntoSlice. rewrite run_called.
  destruct (columns rows) as [names|e]; [|discriminate].
  rewrite run_called. unfold Scan.
  destruct row as [vs|e]; [|discriminate].
  case_decide as Hlen; [|discriminate].
  intros [= <- _]. exists names. auto.
Qed.


End RowsMore.

Section ReplyMore.
Import Genai Reply.
Variable Sprint_part : Part → string.

Lemma Println_parts_concat (parts : list Part) (stdout : string) :
  Println_parts Sprint_part parts stdout
  = stdout +:+ concat_strings ((λ part, Sprint_part part +:+ Fmt.nl) <$> parts).
Proof.
  revert stdout. induction parts as [|part parts IH]; intros stdout.
  - cbn. rewrite append_nil_r. reflexivity.
  - cbn [Println_parts fmap list_fmap concat_strings]. rewrite IH.
    rewrite !append_assoc. reflexivity.
Qed.

(** X19.  Without streaming, an error of the call ends the command with nothing
    printed; a response is printed as the parts of its first candidate, each
    on a line of its own, the other candidates not at all; a response
    without candidate or without content gives the line
    "<empty response from model>". *)
Theorem respond_no_stream (iter : list (result Response)) (stdout : string) :
  (∀ e, respond Sprint_part false iter (Err e) stdout = (Fatal e, stdout)) ∧
  (∀ parts cs,
     respond Sprint_part false iter
       (Ok {| Candidates := {| content := Some parts |} :: cs |}) stdout
     = (Done tt,
        stdout +:+ concat_strings
                     ((λ part, Sprint_part part +:+ Fmt.nl) <$> parts))) ∧
  (∀ cs,
     respond Sprint_part false iter
       (Ok {| Candidates := {| content := None |} :: cs |}) stdout
     = (Done tt, stdout +:+ empty_response)) ∧
  respond Sprint_part false iter (Ok {| Candidates := [] |}) stdout
  = (Done tt, stdout +:+ empty_response).
Proof.
  unfold respond, print_response. repeat split.
  - intros parts cs. cbn [Candidates content].
    rewrite decide_False by (simpl; lia).
    rewrite Println_parts_concat. reflexivity.
Qed.

End ReplyMore.

(** ** The further properties on examples *)

Section MoreExamples.
Import Sql EmbedDB Genai.

Lemma embedModeDB_one_pair_per_row_witness :
  length ["1"; "2"] = length (pending MemDB.notes) ∧
  length ["hello world"; "lorem <nil>"] = length (pending MemDB.notes).
Proof.
  refine (embedModeDB_one_pair_per_row MemDB.Sprintf_v MemDB.attach_notes []
            "out.db"
            {| MemDB.tables := {["embeddings" := ∅]};
               MemDB.attached := [("docs", "docs.db")] |}
            {| MemDB.tables := {["embeddings" := ∅]};
               MemDB.attached := [("docs", "docs.db")] |}
            {| MemDB.tables := {["embeddings" := ∅]};
               MemDB.attached := [("docs", "docs.db")] |}
            MemDB.notes ["1"; "2"] ["hello world"; "lorem <nil>"] _ _ _).
  - split; [discriminate|].
    exists {| MemDB.tables := ∅; MemDB.attached := [] |},
           {| MemDB.tables := {["embeddings" := ∅]}; MemDB.attached := [] |}.
    split; [reflexivity|]. split; [vm_compute; reflexivity|].
    right. exists "docs", "docs.db". split; vm_compute; reflexivity.
  - vm_compute. reflexivity.
  - vm_compute. reflexivity.
Defined.




Lemma runTemplateCmd_added_iff_witness :
  Examples.run Examples.add_greet ["say hello to %s"]
  = Done (Template.Added ("greet:say hello to %s" +:+ Fmt.nl)).
Proof.
  apply (proj2 (runTemplateCmd_added_iff Template.ex_argLooksLikeURL
                  Template.ex_getPartFromURL Template.ex_argLooksLikeFilename
                  Template.ex_getPartFromFile None (λ _, Err "invalid syntax")
                  (Ok "/home/user") (λ _, None) (λ _, None)
                  Template.ex_templates Examples.add_greet Template.ex_env
                  ["say hello to %s"]
                  ("greet:say hello to %s" +:+ Fmt.nl))).
  split; [reflexivity|]. split; [discriminate|].
  exists "say hello to %s". repeat split.
Defined.

Lemma scan_loop_last_wins_witness :
  TemplateFile.scan_loop Examples.TrimSpace
    (["tr: old text"] ++ " tr : translate %s to english " :: ["no colon here"])
    ∅ !! "tr"
  = Some "translate %s to english".
Proof.
  refine (scan_loop_last_wins Examples.TrimSpace ["tr: old text"]
            ["no colon here"] " tr : translate %s to english " " tr "
            " translate %s to english " ∅ _ _).
  - reflexivity.
  - repeat constructor. vm_compute. discriminate.
Defined.

Lemma init_reads_added_witness :
  ∃ templates : gmap string string,
    TemplateFile.init Examples.TrimSpace (Ok "/home/user") (λ _, None)
      (λ _, ["tr:translate %s to english"; "greet:say hello to %s"])
    = Done templates ∧
    templates !! "greet" = Some "say hello to %s".
Proof.
  refine (init_reads_added Examples.TrimSpace (Ok "/home/user") (λ _, None)
            (λ _, None) (λ _, None)
            (λ _, ["tr:translate %s to english"; "greet:say hello to %s"])
            "greet" "say hello to %s" ("greet:say hello to %s" +:+ Fmt.nl)
            ["tr:translate %s to english"] _ _ _).
  - reflexivity.
  - reflexivity.
  - intros homeDir _. split; [reflexivity|].
    exists "greet:say hello to %s". split; reflexivity.
Defined.

Lemma runPromptCmd_no_prompt_iff_witness :
  Prompt.runPromptCmd Template.ex_env []
  = Fatal "expect a prompt from stdin and/or command-line argument".
Proof.
  apply (proj2 (runPromptCmd_no_prompt_iff Template.ex_env [] "secret"
                  eq_refl eq_refl ltac:(discriminate))).
  repeat split.
Defined.

Lemma scanRowIntoSlice_one_value_per_column_witness :
  ∃ names : list string,
    columns MemDB.notes = Ok names ∧
    Ok [MemDB.Integer 1; MemDB.Text "hello"; MemDB.Text "world"]
    = Ok [MemDB.Integer 1; MemDB.Text "hello"; MemDB.Text "world"] ∧
    length [MemDB.Integer 1; MemDB.Text "hello"; MemDB.Text "world"]
    = length names.
Proof.
  apply (scanRowIntoSlice_one_value_per_column MemDB.notes
           (Ok [MemDB.Integer 1; MemDB.Text "hello"; MemDB.Text "world"])
           [MemDB.Integer 1; MemDB.Text "hello"; MemDB.Text "world"] []
           [Event Rows_Columns None; Event Rows_Scan None]).
  reflexivity.
Defined.


Lemma getAPIKey_key_witness :
  "from-env" ≠ "" ∧ "from-env" = "from-env".
Proof.
  exact (proj1 (getAPIKey_key "" "from-env") "from-env" eq_refl).
Defined.

End MoreExamples.
